(** * The token ledger and payment reconciliation of [YooKassaBot] (bot.py)

    A shallow embedding of the three SQLite tables of [bot.py] and of the
    methods of [YooKassaBot] that read or write them, followed by the
    properties of the order life cycle, of crediting and of debiting.

    Modelling choices, all taken from the source:
    - the tables [users] and [orders] have a TEXT PRIMARY KEY and are finite
      maps from that key to the remaining columns; [payments] has an
      AUTOINCREMENT key and no uniqueness constraint on [yookassa_id], it is
      the list of its rows in insertion order;
    - INTEGER columns are [Z]; the REAL columns hold prices of the catalogue
      and sums of them, all whole numbers of roubles, and are [Z] as well;
    - TIMESTAMP columns are [Z], seconds on the clock that CURRENT_TIMESTAMP
      and [datetime('now')] read; the clock is an argument of every method
      that reads it;
    - every method runs its statements on the one connection and commits
      before it returns or awaits, so a method is a function from the
      database before to the database after;
    - the payment provider, the language model and the chat transport are
      outside the program: their answers, or the fact that a call raised,
      are arguments. *)

From Stdlib Require Import ZArith Lia String Ascii List.
From stdpp Require Import base option strings pretty list sorting gmap fin_maps.

Local Open Scope string_scope.
Local Open Scope Z_scope.

(** ** The tables *)

(** A row of [users], without its key [user_id]. *)
Record user := mk_user {
  u_tokens : Z;
  u_total_spent : Z;
  u_registered : Z
}.

(** A row of [orders], without its key [order_id]. *)
Record order := mk_order {
  o_user_id : string;
  o_pack_id : string;
  o_tokens : Z;
  o_price : Z;
  o_yookassa_payment_id : string;
  o_status : string;
  o_created : Z
}.

(** A row of [payments]; [payment_id] is the position in the table. *)
Record payment := mk_payment {
  p_user_id : string;
  p_amount : Z;
  p_tokens_added : Z;
  p_yookassa_id : string;
  p_status : string;
  p_description : string;
  p_created : Z;
  p_updated : Z
}.

Record db := mk_db {
  users : gmap string user;
  orders : gmap string order;
  payments : list payment
}.

(** [init_db]: the three tables are dropped and created again, empty, every
    time the bot object is built. *)
Definition init_db : db := mk_db ∅ ∅ [].

(** [self.COST_PER_REQUEST] *)
Definition COST_PER_REQUEST : Z := 10.

(** An entry of [self.token_packs]; the label is the text after the emoji. *)
Record pack := mk_pack {
  pk_tokens : Z;
  pk_price : Z;
  pk_label : string
}.

Definition token_packs (pack_id : string) : option pack :=
  if String.eqb pack_id "small" then Some (mk_pack 1000 100 "1,000 токенов")
  else if String.eqb pack_id "medium" then Some (mk_pack 5000 450 "5,000 токенов")
  else if String.eqb pack_id "large" then Some (mk_pack 15000 1200 "15,000 токенов")
  else if String.eqb pack_id "premium" then Some (mk_pack 50000 3500 "50,000 токенов")
  else None.

(** ** Row updates *)

(** [SET tokens = tokens + ?, total_spent = total_spent + ?] *)
Definition credit (tokens price : Z) (u : user) : user :=
  mk_user (u_tokens u + tokens) (u_total_spent u + price) (u_registered u).

(** [SET tokens = tokens - ?] *)
Definition debit (amount : Z) (u : user) : user :=
  mk_user (u_tokens u - amount) (u_total_spent u) (u_registered u).

(** [SET tokens = tokens + ?] *)
Definition refund (amount : Z) (u : user) : user :=
  mk_user (u_tokens u + amount) (u_total_spent u) (u_registered u).

(** [UPDATE orders SET status = ?] on one row. *)
Definition set_order_status (st : string) (o : order) : order :=
  mk_order (o_user_id o) (o_pack_id o) (o_tokens o) (o_price o)
           (o_yookassa_payment_id o) st (o_created o).

(** [SET status = 'completed', updated = CURRENT_TIMESTAMP] on one row. *)
Definition complete_payment (now : Z) (p : payment) : payment :=
  mk_payment (p_user_id p) (p_amount p) (p_tokens_added p) (p_yookassa_id p)
             "completed" (p_description p) (p_created p) now.

(** [SET status = ?] on one row of [payments]. *)
Definition set_payment_status (st : string) (p : payment) : payment :=
  mk_payment (p_user_id p) (p_amount p) (p_tokens_added p) (p_yookassa_id p)
             st (p_description p) (p_created p) (p_updated p).

(** [UPDATE payments SET ... WHERE yookassa_id = ?]: every row with that
    provider id is rewritten, the others are kept. *)
Definition update_payments (f : payment → payment) (yookassa_id : string)
    (ps : list payment) : list payment :=
  (λ p, if String.eqb (p_yookassa_id p) yookassa_id then f p else p) <$> ps.

(** ** [register_user] and [get_user_info] *)

(** [INSERT OR IGNORE INTO users (user_id, tokens) VALUES (?, 100)] *)
Definition register_user (now : Z) (user_id : string) (s : db) : db :=
  match users s !! user_id with
  | Some _ => s
  | None => mk_db (<[user_id := mk_user 100 0 now]> (users s)) (orders s) (payments s)
  end.

Definition get_user_info (user_id : string) (s : db) : option (Z * Z) :=
  (λ u, (u_tokens u, u_total_spent u)) <$> users s !! user_id.

(** ** [process_successful_payment]

    The SELECT keeps the row of [order_id] unless its status is ['paid'];
    without a row the method returns. Otherwise the three UPDATEs run and
    are committed together. The notification sent afterwards does not touch
    the database and its failure is caught and logged. *)
Definition process_successful_payment (now : Z) (payment_id order_id : string)
    (s : db) : db :=
  match orders s !! order_id with
  | None => s
  | Some o =>
      if String.eqb (o_status o) "paid" then s
      else
        mk_db (alter (credit (o_tokens o) (o_price o)) (o_user_id o) (users s))
              (alter (set_order_status "paid") order_id (orders s))
              (update_payments (complete_payment now) payment_id (payments s))
  end.

(** ** [check_payment_status]

    [find_one] is [Payment.find_one]: the status the provider reports for a
    payment id, or [None] when the call raises. The second component is the
    answer the method gives when none of its calls of the chat transport
    raises; [check_payment_status_with_transport] below has those calls
    fail as well. *)
Inductive check_reply :=
  | CheckOrderNotFound
  | CheckAlreadyConfirmed
  | CheckConfirmed
  | CheckNotYet
  | CheckFailedOrCanceled
  | CheckError.

Definition check_payment_status (now : Z) (find_one : string → option string)
    (order_id : string) (s : db) : db * check_reply :=
  match orders s !! order_id with
  | None => (s, CheckOrderNotFound)
  | Some o =>
      if String.eqb (o_status o) "paid" then (s, CheckAlreadyConfirmed)
      else
        match find_one (o_yookassa_payment_id o) with
        | None => (s, CheckError)
        | Some status =>
            if String.eqb status "succeeded" then
              (process_successful_payment now (o_yookassa_payment_id o) order_id s,
               CheckConfirmed)
            else if String.eqb status "pending" then (s, CheckNotYet)
            else (s, CheckFailedOrCanceled)
        end
  end.

(** ** [check_pending_payments] *)

Definition one_day : Z := 86400.
Definition seven_days : Z := 7 * 86400.

(** The rows the first SELECT returns: orders in status ['created'] made
    less than a day ago, as pairs of order id and provider id. The query
    has no ORDER BY; the rows come in the order of [map_to_list], each order
    id once. *)
Definition is_pending (now : Z) (o : order) : Prop :=
  o_status o = "created" ∧ now - one_day < o_created o.

Global Instance is_pending_dec now o : Decision (is_pending now o).
Proof. unfold is_pending. apply _. Defined.

Definition pending_orders (now : Z) (s : db) : list (string * string) :=
  (λ kv, (kv.1, o_yookassa_payment_id kv.2))
    <$> map_to_list (filter (λ kv, is_pending now kv.2) (orders s)).

(** The body of the loop for one fetched row; an exception of the provider
    call is logged and the loop goes on. *)
Definition sweep_one (now : Z) (find_one : string → option string)
    (s : db) (row : string * string) : db :=
  let '(order_id, payment_id) := row in
  match find_one payment_id with
  | None => s
  | Some status =>
      if String.eqb status "succeeded" then
        process_successful_payment now payment_id order_id s
      else if String.eqb status "canceled" || String.eqb status "failed" then
        mk_db (users s)
              (alter (set_order_status "failed") order_id (orders s))
              (update_payments (set_payment_status "failed") payment_id (payments s))
      else s
  end.

(** The rows the final DELETE removes. *)
Definition is_stale (now : Z) (o : order) : Prop :=
  (o_status o = "failed" ∨ o_status o = "canceled")
  ∧ o_created o < now - seven_days.

Global Instance is_stale_dec now o : Decision (is_stale now o).
Proof. unfold is_stale. apply _. Defined.

Definition purge (now : Z) (s : db) : db :=
  mk_db (users s) (filter (λ kv, ¬ is_stale now kv.2) (orders s)) (payments s).

Definition check_pending_payments (now : Z) (find_one : string → option string)
    (s : db) : db :=
  purge now (foldl (sweep_one now find_one) s (pending_orders now s)).

(** ** [create_yookassa_payment] *)

(** Python's [format(n, ',')] for the token counts of the descriptions. *)
Fixpoint group_digits (fuel : nat) (n : Z) : string :=
  match fuel with
  | O => pretty n
  | S fuel' =>
      if (n <? 1000)%Z then pretty n
      else
        let low := (n mod 1000)%Z in
        let pad := if (low <? 10)%Z then "00" else if (low <? 100)%Z then "0" else "" in
        group_digits fuel' (n / 1000)%Z +:+ "," +:+ pad +:+ pretty low
  end.

Definition with_commas (n : Z) : string :=
  if (n <? 0)%Z then "-" +:+ group_digits 32 (- n)%Z else group_digits 32 n.

Inductive create_reply :=
  | CreatePackNotFound
  | CreateDone (order_id : string)
  | CreateFailed.

(** [order_id] is the fresh [uuid.uuid4()]; [created] is what
    [Payment.create] returns, the id of the new payment, or [None] when the
    call raises. The provider is called first; the two INSERTs and the commit
    follow in the same [try] block, whose handler only logs and answers.
    An INSERT on a key that is already in [orders] raises as well. The
    second component is the answer the method gives when none of its calls of
    the chat transport raises; [create_yookassa_payment_with_transport]
    below has those calls fail as well. *)
Definition create_yookassa_payment (now : Z) (order_id : string)
    (created : option string) (user_id pack_id : string) (s : db)
    : db * create_reply :=
  match token_packs pack_id with
  | None => (s, CreatePackNotFound)
  | Some pk =>
      match created with
      | None => (s, CreateFailed)
      | Some payment_id =>
          match orders s !! order_id with
          | Some _ => (s, CreateFailed)
          | None =>
              (mk_db (users s)
                     (<[order_id := mk_order user_id pack_id (pk_tokens pk)
                                      (pk_price pk) payment_id "created" now]>
                        (orders s))
                     (payments s ++
                        [mk_payment user_id (pk_price pk) (pk_tokens pk) payment_id
                           "pending"
                           ("Покупка " +:+ with_commas (pk_tokens pk) +:+ " токенов")
                           now now]),
               CreateDone order_id)
          end
      end
  end.

(** ** [handle_message] *)

(** An answer of the language model: the text, and the number of characters
    of [answer.strip()] that the handler compares with 20 and 50. *)
Record answer_text := mk_answer {
  a_body : string;
  a_stripped_len : nat
}.

(** What one [ollama.generate] call of the loop yields: an exception, or the
    stripped answer, whether more than half of its characters are Russian
    letters, and what [filter_english_text] makes of it. *)
Inductive gen_result :=
  | GenRaises
  | GenReturns (answer : answer_text) (russian : bool) (filtered : answer_text).

Definition models_to_try : list string :=
  ["mistral"; "llama2"; "neural-chat"; "openchat"].

(** The [for model in models_to_try] loop: an exception of a call is logged
    and the next model is tried, with [answer] as it was. *)
Fixpoint try_models (generate : string → gen_result) (models : list string)
    (answer : answer_text) : answer_text :=
  match models with
  | [] => answer
  | model :: rest =>
      match generate model with
      | GenRaises => try_models generate rest answer
      | GenReturns a russian filtered =>
          if russian then a
          else if (50 <? a_stripped_len filtered)%nat then filtered
          else try_models generate rest filtered
      end
  end.

Definition apology : answer_text :=
  mk_answer "Извините, в данный момент не могу дать качественный ответ на русском языке. Попробуйте перефразировать вопрос или обратитесь позже." 131.

Definition final_answer (answer : answer_text) : answer_text :=
  if String.eqb (a_body answer) "" || (a_stripped_len answer <? 20)%nat
  then apology else answer.

Inductive message_reply :=
  | MsgInsufficient (balance : Z)
  | MsgUnavailable
  | MsgAnswered (answer : answer_text) (balance : Z)
  | MsgRefunded.

(** The check of the balance, the check of [self.ollama_available], the
    debit and its commit, the loop over the models, the answer. The second
    [get_user_info] reads the balance shown in the answer; subscripting its
    result raises if the account is gone. [reply_raises] says whether sending
    the answer raises: both are exceptions inside the outer [try], after the
    debit was committed, and reach the handler that gives the tokens back.
    The dialogue history is a dictionary in memory and is left out. *)
Definition handle_message (ollama_available : bool)
    (generate : string → gen_result) (reply_raises : bool)
    (user_id : string) (s : db) : db * message_reply :=
  match get_user_info user_id s with
  | None => (s, MsgInsufficient 0)
  | Some (tokens, _) =>
      if (tokens <? COST_PER_REQUEST)%Z then (s, MsgInsufficient tokens)
      else if negb ollama_available then (s, MsgUnavailable)
      else
        let s1 := mk_db (alter (debit COST_PER_REQUEST) user_id (users s))
                        (orders s) (payments s) in
        let answer := final_answer (try_models generate models_to_try (mk_answer "" 0)) in
        let refunded := mk_db (alter (refund COST_PER_REQUEST) user_id (users s1))
                              (orders s1) (payments s1) in
        match get_user_info user_id s1 with
        | None => (refunded, MsgRefunded)
        | Some (balance, _) =>
            if reply_raises then (refunded, MsgRefunded)
            else (s1, MsgAnswered answer balance)
        end
  end.

(** ** [button_handler] *)

(** Python's [str.split(sep)] for a one-character separator. *)
Fixpoint split (sep : ascii) (s : string) : list string :=
  match s with
  | EmptyString => [EmptyString]
  | String c rest =>
      if Ascii.eqb c sep then EmptyString :: split sep rest
      else
        match split sep rest with
        | [] => [String c EmptyString]
        | field :: fields => String c field :: fields
        end
  end.

(** What the handlers read from outside the database during one call. *)
Record world := mk_world {
  w_now : Z;                                (* the clock *)
  w_uuid4 : string;                         (* the next [uuid.uuid4()] *)
  w_create : option string;                 (* [Payment.create]: the new id, or it raises *)
  w_find_one : string → option string;      (* [Payment.find_one] *)
  w_ollama_available : bool;                (* [self.ollama_available] *)
  w_generate : string → gen_result;         (* [ollama.generate] per model *)
  w_reply_raises : bool                     (* sending the answer raises *)
}.

Inductive button_reply :=
  | BtnMenu
  | BtnBalance (info : option (Z * Z))
  | BtnBuy
  | BtnHistory
  | BtnAskQuestion
  | BtnClearHistory
  | BtnCreate (r : create_reply)
  | BtnCheck (r : check_reply)
  | BtnOrderCanceled
  | BtnUnknown
  | BtnError.

(** The chain of [if]/[elif] on [query.data], with the answers the branches
    give when the calls of the chat transport succeed. [BtnError] is the
    answer of the handler's [except]: [data.split("_")[2]] raises IndexError
    on fewer than three fields, and the branch for the help calls
    [help_command], which sends with [update.message]; an update made by a
    button has no [message], so that call raises (the other handlers test
    [update.message] and use [update.callback_query] instead). The branches
    for the menu, the balance, the purchase menu, the history and the
    dialogue history read the database at most; the dialogue history is a
    dictionary in memory, not a table. *)
Definition button_handler (w : world) (user_id data : string) (s : db)
    : db * button_reply :=
  if String.eqb data "menu" then (s, BtnMenu)
  else if String.eqb data "balance" then (s, BtnBalance (get_user_info user_id s))
  else if String.eqb data "buy" then (s, BtnBuy)
  else if String.eqb data "history" then (s, BtnHistory)
  else if String.eqb data "help" then (s, BtnError)
  else if String.eqb data "ask_question" then (s, BtnAskQuestion)
  else if String.eqb data "clear_history" then (s, BtnClearHistory)
  else if String.prefix "create_payment_" data then
    match split "_" data !! 2%nat with
    | None => (s, BtnError)
    | Some pack_id =>
        let r := create_yookassa_payment (w_now w) (w_uuid4 w) (w_create w)
                   user_id pack_id s in
        (r.1, BtnCreate r.2)
    end
  else if String.prefix "check_payment_" data then
    match split "_" data !! 2%nat with
    | None => (s, BtnError)
    | Some order_id =>
        let r := check_payment_status (w_now w) (w_find_one w) order_id s in
        (r.1, BtnCheck r.2)
    end
  else if String.prefix "cancel_order_" data then
    match split "_" data !! 2%nat with
    | None => (s, BtnError)
    | Some order_id => (s, BtnOrderCanceled)
    end
  else (s, BtnUnknown).

(** ** The operations the bot exposes

    The command handlers, the text handler, the button handler and the job
    that [run_repeating] starts every 30 seconds. *)
Inductive op :=
  | OpStart (user_id : string)              (* /start *)
  | OpCommand (user_id : string)            (* /help /menu /balance /buy /history /clear *)
  | OpMessage (user_id : string)            (* a text message *)
  | OpButton (user_id data : string)        (* an inline button *)
  | OpSweep.                                (* check_pending_payments *)

Definition run_op (w : world) (o : op) (s : db) : db :=
  match o with
  | OpStart user_id => register_user (w_now w) user_id s
  | OpCommand _ => s
  | OpMessage user_id =>
      (handle_message (w_ollama_available w) (w_generate w) (w_reply_raises w)
         user_id s).1
  | OpButton user_id data => (button_handler w user_id data s).1
  | OpSweep => check_pending_payments (w_now w) (w_find_one w) s
  end.

Definition run_ops (ops : list (world * op)) (s : db) : db :=
  foldl (λ s wo, run_op wo.1 wo.2 s) s ops.

(** ** Vocabulary of the statements *)

(** The balance of an account, when there is one. *)
Definition tokens_of (user_id : string) (s : db) : option Z :=
  u_tokens <$> users s !! user_id.

Definition total_spent_of (user_id : string) (s : db) : option Z :=
  u_total_spent <$> users s !! user_id.

Definition order_status (order_id : string) (s : db) : option string :=
  o_status <$> orders s !! order_id.

(** What the outside does during one text message. *)
Record request := mk_request {
  r_ollama_available : bool;
  r_generate : string → gen_result;
  r_reply_raises : bool
}.

(** Text messages of one user handled one after the other. *)
Fixpoint run_messages (user_id : string) (reqs : list request) (s : db)
    : db * list message_reply :=
  match reqs with
  | [] => (s, [])
  | r :: rest =>
      let step := handle_message (r_ollama_available r) (r_generate r)
                    (r_reply_raises r) user_id s in
      let tl := run_messages user_id rest step.1 in
      (tl.1, step.2 :: tl.2)
  end.

(** The tokens a request ended up paying: the cost when it was answered,
    nothing when it was refused or refunded. *)
Definition debited (r : message_reply) : Z :=
  match r with
  | MsgAnswered _ _ => COST_PER_REQUEST
  | _ => 0
  end.

Definition total_debited (replies : list message_reply) : Z :=
  foldr (λ r acc, debited r + acc) 0 replies.

(** A request during which the model is reachable, one model answers in
    Russian and the answer is delivered. *)
Definition good_answer : answer_text := mk_answer "Здравствуйте! Чем могу помочь?" 30.

Definition served : request :=
  mk_request true (λ _, GenReturns good_answer true good_answer) false.

(** The consuming operation fails: every [ollama.generate] call raises. *)
Definition llm_fails (generate : string → gen_result) : Prop :=
  Forall (λ model, generate model = GenRaises) models_to_try.

(** The columns of a payment row that no UPDATE of the program writes. *)
Definition same_record (p q : payment) : Prop :=
  p_user_id p = p_user_id q ∧ p_amount p = p_amount q
  ∧ p_tokens_added p = p_tokens_added q ∧ p_yookassa_id p = p_yookassa_id q
  ∧ p_description p = p_description q ∧ p_created p = p_created q.

(** Every payment row of [ps] is still in [qs], at its place, with at most
    its status and its [updated] time rewritten. *)
Definition payments_kept (ps qs : list payment) : Prop :=
  ∀ i p, ps !! i = Some p → ∃ q, qs !! i = Some q ∧ same_record p q.

(** Between [s] and [s'] no account appeared out of an order, and an
    account whose [total_spent] differs has an order that was not paid in
    [s] and is paid in [s']. *)
Definition spent_justified (s s' : db) : Prop :=
  ∀ uid u u',
    users s !! uid = Some u → users s' !! uid = Some u' →
    u_total_spent u' ≠ u_total_spent u →
    ∃ oid o, orders s !! oid = Some o ∧ o_user_id o = uid
             ∧ o_status o ≠ "paid" ∧ order_status oid s' = Some "paid".

(** The paid orders of [s] are in [s'] as they were. *)
Definition paid_kept (s s' : db) : Prop :=
  ∀ oid o, orders s !! oid = Some o → o_status o = "paid" →
           orders s' !! oid = Some o.

(** An order that has left ['created'] in [s] is not ['created'] in [s']. *)
Definition left_created_kept (s s' : db) : Prop :=
  ∀ oid o o', orders s !! oid = Some o → o_status o ≠ "created" →
              orders s' !! oid = Some o' → o_status o' ≠ "created".

(** The database without one order. *)
Definition without_order (order_id : string) (s : db) : db :=
  mk_db (users s) (delete order_id (orders s)) (payments s).

(** ** Sample data

    User 42 sends /start at time 0 and orders the small pack at time 1000;
    the provider names the payment [pay-1]. *)
Definition demo_db : db :=
  (create_yookassa_payment 1000 "ord-1" (Some "pay-1") "42" "small"
     (register_user 0 "42" init_db)).1.

Definition demo_order : order :=
  mk_order "42" "small" 1000 100 "pay-1" "created" 1000.

(** The same database after the provider canceled the payment and a sweep
    at time 1030 recorded it. *)
Definition demo_failed_db : db :=
  check_pending_payments 1030 (λ _, Some "canceled") demo_db.

(** The same database after the payment succeeded and a sweep at time 1030
    settled it. *)
Definition demo_paid_db : db :=
  check_pending_payments 1030 (λ _, Some "succeeded") demo_db.

Definition provider (status : string) : string → option string :=
  λ _, Some status.

Definition quiet_world (now : Z) : world :=
  mk_world now "ord-2" None (λ _, None) true (λ _, GenRaises) false.

(** ** The handlers that only read, and the dialogue history *)

(** [show_balance]: the balance, the money spent and the number of requests
    the balance pays for, [tokens // COST_PER_REQUEST]; nothing for a user
    without an account. *)
Record balance_view := mk_balance_view {
  bv_tokens : Z;
  bv_total_spent : Z;
  bv_requests : Z
}.

Definition show_balance (user_id : string) (s : db) : option balance_view :=
  (λ info, mk_balance_view info.1 info.2 (info.1 / COST_PER_REQUEST))
    <$> get_user_info user_id s.

(** [payment_history]. The SELECT keeps the rows of the user, orders them by
    [created], newest first, and returns at most 10. Rows with the same
    [created] come in an order SQL does not fix; here it is the order in
    which [merge_sort] leaves them. *)
Definition newer (p q : payment) : Prop := p_created q ≤ p_created p.

Global Instance newer_dec p q : Decision (newer p q).
Proof. unfold newer. apply _. Defined.

Global Instance newer_trans : Transitive newer.
Proof. unfold newer. intros p q r H1 H2. lia. Qed.

Global Instance newer_total : Total newer.
Proof. unfold newer. intros p q. lia. Qed.

Definition history_rows (user_id : string) (s : db) : list payment :=
  take 10 (merge_sort newer (filter (λ p, p_user_id p = user_id) (payments s))).

Definition status_emoji (status : string) : string :=
  if String.eqb status "completed" then "✅"
  else if String.eqb status "pending" then "⏳"
  else "❌".

(** One entry of the message: description, amount, tokens, the first 16
    characters of the time are left as the time, the sign and the status. *)
Definition history_entry (p : payment) : string * Z * Z * Z * string * string :=
  (p_description p, p_amount p, p_tokens_added p, p_created p,
   status_emoji (p_status p), p_status p).

Definition payment_history (user_id : string) (s : db)
    : option (list (string * Z * Z * Z * string * string)) :=
  match history_rows user_id s with
  | [] => None
  | rows => Some (history_entry <$> rows)
  end.

(** [self.conversation_history]: per user, the list of pairs of a role and
    a message. *)
Definition last_n {A} (n : nat) (l : list A) : list A := drop (length l - n)%nat l.

(** Lines 634-641 of [handle_message]: the question and the answer are
    appended and the list is cut to its last 8 entries. *)
Definition remember (user_id message answer : string)
    (h : gmap string (list (string * string))) : gmap string (list (string * string)) :=
  let l := (default [] (h !! user_id) ++ [("user", message); ("assistant", answer)])%list in
  <[user_id := if (8 <? length l)%nat then last_n 8 l else l]> h.

(** Lines 571 and 582-588: the entries put in front of the prompt. *)
Definition dialogue_context (user_id : string)
    (h : gmap string (list (string * string))) : list (string * string) :=
  last_n 3 (default [] (h !! user_id)).

(** [clear_history], with whether there was something to clear. *)
Definition clear_history (user_id : string)
    (h : gmap string (list (string * string)))
    : gmap string (list (string * string)) * bool :=
  match h !! user_id with
  | Some _ => (delete user_id h, true)
  | None => (h, false)
  end.

(** [start]: the account is made if it is missing and the dialogue of the
    user is forgotten. *)
Definition start (now : Z) (user_id : string)
    (st : db * gmap string (list (string * string)))
    : db * gmap string (list (string * string)) :=
  (register_user now user_id st.1, delete user_id st.2).

(** The keys of [self.token_packs], in the order of the dictionary, and the
    callback strings of the buttons [buy_tokens] shows. *)
Definition pack_ids : list string := ["small"; "medium"; "large"; "premium"].

Definition buy_tokens : list string :=
  ((λ pack_id, "create_payment_" +:+ pack_id) <$> pack_ids) ++ ["menu"].

(** The callback strings of the buttons under a new payment. *)
Definition payment_buttons (order_id : string) : list string :=
  ["check_payment_" +:+ order_id; "cancel_order_" +:+ order_id].

(** ** Vocabulary of the ledger *)

(** What an order has brought its user: the value [f] of the order when it
    is an order of [user_id] in status ['paid'], nothing otherwise; and the
    sum over the table. *)
Definition paid_amount (f : order → Z) (user_id : string) (o : order) : Z :=
  if decide (o_user_id o = user_id ∧ o_status o = "paid") then f o else 0.

Definition paid_sum (f : order → Z) (user_id : string) (m : gmap string order) : Z :=
  map_fold (λ _ o acc, paid_amount f user_id o + acc) 0 m.

(** What an operation charges the account [user_id]: the cost of a text
    message of that user that is answered. *)
Definition charge (w : world) (o : op) (user_id : string) (s : db) : Z :=
  match o with
  | OpMessage sender =>
      if decide (sender = user_id)
      then debited (handle_message (w_ollama_available w) (w_generate w)
                      (w_reply_raises w) sender s).2
      else 0
  | _ => 0
  end.

(** The account [user_id] between [s] and [s'], charged [c]: it is still
    there, registered at the same time, and its balance and its
    [total_spent] have moved with the tokens and the prices of its paid
    orders, the balance by the charge as well. *)
Definition ledger_step (user_id : string) (c : Z) (s s' : db) : Prop :=
  ∀ u, users s !! user_id = Some u →
    ∃ u', users s' !! user_id = Some u'
      ∧ u_tokens u' - paid_sum o_tokens user_id (orders s')
        = u_tokens u - paid_sum o_tokens user_id (orders s) - c
      ∧ u_total_spent u' - paid_sum o_price user_id (orders s')
        = u_total_spent u - paid_sum o_price user_id (orders s)
      ∧ u_registered u' = u_registered u.

(** The shape of the rows the program writes. *)
Definition order_ok (o : order) : Prop :=
  (o_status o = "created" ∨ o_status o = "paid" ∨ o_status o = "failed")
  ∧ ∃ pk, token_packs (o_pack_id o) = Some pk
          ∧ o_tokens o = pk_tokens pk ∧ o_price o = pk_price pk.

Definition payment_ok (p : payment) : Prop :=
  p_status p = "pending" ∨ p_status p = "completed" ∨ p_status p = "failed".

Definition user_ok (u : user) : Prop := 0 ≤ u_tokens u ∧ 0 ≤ u_total_spent u.

Definition consistent (s : db) : Prop :=
  (∀ oid o, orders s !! oid = Some o → order_ok o)
  ∧ (∀ uid u, users s !! uid = Some u → user_ok u)
  ∧ Forall payment_ok (payments s).

(** Sweeps one after the other, each with its time and what the provider
    answers during it. *)
Definition run_sweeps (sweeps : list (Z * (string → option string))) (s : db) : db :=
  foldl (λ s sw, check_pending_payments sw.1 sw.2 s) s sweeps.

(** The provider has nothing to report for a payment: the call raises, or
    the status is none of those the sweep acts on. *)
Definition quiet (find_one : string → option string) (payment_id : string) : Prop :=
  match find_one payment_id with
  | None => True
  | Some status =>
      status ≠ "succeeded" ∧ status ≠ "canceled" ∧ status ≠ "failed"
  end.

(** No underscore in a string: the ids of the catalogue, and the text of a
    [uuid.uuid4()], hexadecimal digits and hyphens. *)
Fixpoint has_underscore (str : string) : bool :=
  match str with
  | EmptyString => false
  | String c rest => Ascii.eqb c "_" || has_underscore rest
  end.

Definition plain (str : string) : Prop := has_underscore str = false.

(** ** The answers when the chat transport fails

    Every awaited call of the chat transport can raise. Each of them is at
    one place of the method and runs at most once in a call of the method, so
    what the transport does during the call is a function from the places to
    whether the call there raises. The result is the database and the answer
    that reached the user, or [None] when an exception left the method. *)

(** The calls of [check_payment_status]: the empty answer at its start
    (line 357), the answers for a missing and for a paid order (364, 370),
    the edit of the message after a settlement (393), the answers for a
    pending and for a failed payment (400, 402), the answer of the handler
    of the [try] (406). *)
Inductive check_site :=
  | CkAck
  | CkNotFound
  | CkAlready
  | CkEdit
  | CkNotYet
  | CkFailed
  | CkError.

Definition check_payment_status_with_transport (raises : check_site → bool)
    (now : Z) (find_one : string → option string) (order_id : string) (s : db)
    : db * option check_reply :=
  let say (site : check_site) (r : check_reply) : option check_reply :=
    if raises site then None else Some r in
  (* an answer inside the [try]: when it raises, the handler answers *)
  let try_say (site : check_site) (r : check_reply) : option check_reply :=
    if raises site then say CkError CheckError else Some r in
  if raises CkAck then (s, None)
  else
    match orders s !! order_id with
    | None => (s, say CkNotFound CheckOrderNotFound)
    | Some o =>
        if String.eqb (o_status o) "paid" then (s, say CkAlready CheckAlreadyConfirmed)
        else
          match find_one (o_yookassa_payment_id o) with
          | None => (s, say CkError CheckError)
          | Some status =>
              if String.eqb status "succeeded" then
                (process_successful_payment now (o_yookassa_payment_id o) order_id s,
                 try_say CkEdit CheckConfirmed)
              else if String.eqb status "pending" then (s, try_say CkNotYet CheckNotYet)
              else (s, try_say CkFailed CheckFailedOrCanceled)
          end
    end.

(** The calls of [create_yookassa_payment]: the answer for an unknown pack
    (line 271), reading [payment.confirmation.confirmation_url] for the
    keyboard (337), the edit of the message (343), the answer "created"
    (349), the answer of the handler of the [try] (353). The three in the
    middle come after the commit, inside the [try]. *)
Inductive create_site :=
  | CrPackNotFound
  | CrUrl
  | CrEdit
  | CrAnswer
  | CrError.

Definition create_yookassa_payment_with_transport (raises : create_site → bool)
    (now : Z) (order_id : string) (created : option string)
    (user_id pack_id : string) (s : db) : db * option create_reply :=
  let failed : option create_reply :=
    if raises CrError then None else Some CreateFailed in
  match token_packs pack_id with
  | None => (s, if raises CrPackNotFound then None else Some CreatePackNotFound)
  | Some pk =>
      match created with
      | None => (s, failed)
      | Some payment_id =>
          match orders s !! order_id with
          | Some _ => (s, failed)
          | None =>
              (mk_db (users s)
                     (<[order_id := mk_order user_id pack_id (pk_tokens pk)
                                      (pk_price pk) payment_id "created" now]>
                        (orders s))
                     (payments s ++
                        [mk_payment user_id (pk_price pk) (pk_tokens pk) payment_id
                           "pending"
                           ("Покупка " +:+ with_commas (pk_tokens pk) +:+ " токенов")
                           now now]),
               if raises CrUrl || raises CrEdit || raises CrAnswer then failed
               else Some (CreateDone order_id))
          end
      end
  end.

(** ** A purchase without an account

    User 7 never sent /start. At time 1000 the user presses the button of
    the small pack; the provider makes the payment [pay-1]. *)
Definition buyer_world : world :=
  mk_world 1000 "ord-1" (Some "pay-1") (provider "succeeded") true (λ _, GenRaises) false.

Definition unregistered_db : db :=
  run_ops [(buyer_world, OpButton "7" "create_payment_small")] init_db.

(** The sweep 30 seconds later, the provider reporting the payment as
    succeeded. *)
Definition sweep_world : world :=
  mk_world 1030 "ord-2" None (provider "succeeded") true (λ _, GenRaises) false.

(** * Properties *)

Example with_commas_1000 : with_commas 1000 = "1,000".
Proof. vm_compute. reflexivity. Qed.

Example with_commas_1002003 : with_commas 1002003 = "1,002,003".
Proof. vm_compute. reflexivity. Qed.

Example split_check : split "_" "check_payment_ab-12" = ["check"; "payment"; "ab-12"].
Proof. reflexivity. Qed.

Example split_trailing : split "_" "cancel_order_" = ["cancel"; "order"; ""].
Proof. reflexivity. Qed.

Example demo_db_order : orders demo_db !! "ord-1" = Some demo_order.
Proof. vm_compute. reflexivity. Qed.

Example demo_db_balance : tokens_of "42" demo_db = Some 100.
Proof. vm_compute. reflexivity. Qed.

Example demo_db_payments :
  payments demo_db =
  [mk_payment "42" 100 1000 "pay-1" "pending" "Покупка 1,000 токенов" 1000 1000].
Proof. vm_compute. reflexivity. Qed.

Example demo_failed_status : order_status "ord-1" demo_failed_db = Some "failed".
Proof. vm_compute. reflexivity. Qed.

Example demo_paid_status :
  order_status "ord-1" demo_paid_db = Some "paid"
  ∧ tokens_of "42" demo_paid_db = Some 1100
  ∧ total_spent_of "42" demo_paid_db = Some 100.
Proof. vm_compute. auto. Qed.

(** ** Settlement *)

Section Settlement.
Variables (now : Z) (payment_id order_id : string) (s : db).

Lemma settle_absent :
  orders s !! order_id = None →
  process_successful_payment now payment_id order_id s = s.
Proof. intros H. unfold process_successful_payment. by rewrite H. Qed.

Lemma settle_paid o :
  orders s !! order_id = Some o → o_status o = "paid" →
  process_successful_payment now payment_id order_id s = s.
Proof.
  intros H Hp. unfold process_successful_payment. rewrite H, Hp. reflexivity.
Qed.

Lemma settle_unpaid o :
  orders s !! order_id = Some o → o_status o ≠ "paid" →
  process_successful_payment now payment_id order_id s =
  mk_db (alter (credit (o_tokens o) (o_price o)) (o_user_id o) (users s))
        (alter (set_order_status "paid") order_id (orders s))
        (update_payments (complete_payment now) payment_id (payments s)).
Proof.
  intros H Hp. unfold process_successful_payment. rewrite H.
  destruct (String.eqb_spec (o_status o) "paid"); [contradiction | reflexivity].
Qed.

(** Whatever the order was, it is in status ['paid'] afterwards. *)
Lemma settle_status o :
  orders s !! order_id = Some o →
  orders (process_successful_payment now payment_id order_id s) !! order_id
  = Some (set_order_status "paid" o).
Proof.
  intros H. destruct (decide (o_status o = "paid")) as [Hp | Hp].
  - rewrite (settle_paid o H Hp), H. f_equal.
    destruct o; simpl in *; by subst.
  - rewrite (settle_unpaid o H Hp). simpl.
    by rewrite lookup_alter_eq, H.
Qed.

Lemma settle_other_order oid :
  oid ≠ order_id →
  orders (process_successful_payment now payment_id order_id s) !! oid
  = orders s !! oid.
Proof.
  intros Hne. unfold process_successful_payment.
  destruct (orders s !! order_id) as [o|] eqn:H; [|done].
  destruct (String.eqb (o_status o) "paid"); [done|]. simpl.
  by rewrite lookup_alter_ne.
Qed.
End Settlement.

Lemma update_payments_lookup f pid (ps : list payment) i :
  update_payments f pid ps !! i
  = (λ p, if String.eqb (p_yookassa_id p) pid then f p else p) <$> ps !! i.
Proof. unfold update_payments. apply list_lookup_fmap. Qed.

Lemma update_payments_length f pid (ps : list payment) :
  length (update_payments f pid ps) = length ps.
Proof. unfold update_payments. apply length_fmap. Qed.

(** Settling the same order twice, the second call after the first has
    returned: the second call changes nothing, because the order it selects
    with [status != 'paid'] is no longer there; the order is in status
    ['paid'] after both calls; and the account of an order that was not paid
    before, when there is one, has received the order's tokens once, no
    other account anything. Without an account nothing is credited. *)
Theorem settle_twice_credits_once
    (now1 now2 : Z) (payment_id order_id : string) (s : db) (o : order) :
  orders s !! order_id = Some o →
  let s1 := process_successful_payment now1 payment_id order_id s in
  let s2 := process_successful_payment now2 payment_id order_id s1 in
  s2 = s1
  ∧ order_status order_id s2 = Some "paid"
  ∧ (o_status o ≠ "paid" →
     tokens_of (o_user_id o) s2 = (λ t, t + o_tokens o) <$> tokens_of (o_user_id o) s)
  ∧ (o_status o = "paid" → s2 = s)
  ∧ (∀ user_id, user_id ≠ o_user_id o → users s2 !! user_id = users s !! user_id).
Proof.
  intros H s1 s2.
  assert (H1 : orders s1 !! order_id = Some (set_order_status "paid" o))
    by apply settle_status, H.
  assert (E : s2 = s1) by (eapply settle_paid; [exact H1 | reflexivity]).
  rewrite E. split; [reflexivity|]. split.
  { unfold order_status. by rewrite H1. }
  split; [|split].
  - intros Hp. subst s1. rewrite (settle_unpaid _ _ _ _ o H Hp).
    unfold tokens_of. simpl. rewrite lookup_alter_eq.
    by destruct (users s !! o_user_id o).
  - intros Hp. subst s1. by rewrite (settle_paid _ _ _ _ o H Hp).
  - intros uid Hne. subst s1. unfold process_successful_payment. rewrite H.
    destruct (String.eqb (o_status o) "paid"); [done|]. simpl.
    by rewrite lookup_alter_ne.
Qed.

Lemma settle_twice_credits_once_witness :
  orders demo_db !! "ord-1" = Some demo_order
  ∧ tokens_of "42" demo_db = Some 100
  ∧ tokens_of "42"
      (process_successful_payment 1200 "pay-1" "ord-1"
         (process_successful_payment 1100 "pay-1" "ord-1" demo_db))
    = Some 1100.
Proof.
  assert (H : orders demo_db !! "ord-1" = Some demo_order) by (vm_compute; reflexivity).
  split; [exact H|]. split; [vm_compute; reflexivity|].
  destruct (settle_twice_credits_once 1100 1200 "pay-1" "ord-1" demo_db demo_order H)
    as (_ & _ & Hc & _).
  etrans; [exact (Hc ltac:(vm_compute; discriminate)) | vm_compute; reflexivity].
Defined.

(** ** The periodic sweep *)

Lemma pending_orders_fst now s :
  (pending_orders now s).*1
  = (map_to_list (filter (λ kv, is_pending now kv.2) (orders s))).*1.
Proof.
  unfold pending_orders. rewrite <- list_fmap_compose.
  apply list_fmap_ext. by intros i [k o] _.
Qed.

Lemma pending_orders_NoDup now s : NoDup (pending_orders now s).*1.
Proof. rewrite pending_orders_fst. apply NoDup_fst_map_to_list. Qed.

Lemma elem_of_pending_orders now s oid pid :
  (oid, pid) ∈ pending_orders now s
  ↔ ∃ o, orders s !! oid = Some o ∧ is_pending now o
         ∧ pid = o_yookassa_payment_id o.
Proof.
  unfold pending_orders. rewrite list_elem_of_fmap. split.
  - intros [[k o] [E Hin]]. simpl in E. inversion E; subst.
    apply elem_of_map_to_list, map_lookup_filter_Some in Hin as [Hl Hp].
    eauto.
  - intros (o & Hl & Hp & ->). exists (oid, o). split; [done|].
    apply elem_of_map_to_list, map_lookup_filter_Some. done.
Qed.

Lemma elem_of_pending_ids now s oid :
  oid ∈ (pending_orders now s).*1
  ↔ ∃ o, orders s !! oid = Some o ∧ is_pending now o.
Proof.
  rewrite list_elem_of_fmap. split.
  - intros [[k pid] [E Hin]]. simpl in E. subst k.
    apply elem_of_pending_orders in Hin as (o & ? & ? & _). eauto.
  - intros (o & Hl & Hp). exists (oid, o_yookassa_payment_id o).
    split; [done|]. apply elem_of_pending_orders. eauto.
Qed.

(** One turn of the loop writes no order but the one it was fetched for. *)
Lemma sweep_one_other_order now find_one s row oid :
  oid ≠ row.1 →
  orders (sweep_one now find_one s row) !! oid = orders s !! oid.
Proof.
  destruct row as [k pid]. simpl. intros Hne.
  destruct (find_one pid) as [st|]; [|done].
  destruct (String.eqb st "succeeded"); [by apply settle_other_order|].
  destruct (String.eqb st "canceled" || String.eqb st "failed"); [|done].
  simpl. by rewrite lookup_alter_ne.
Qed.

Lemma sweep_fold_other_order now find_one rows s oid :
  oid ∉ rows.*1 →
  orders (foldl (sweep_one now find_one) s rows) !! oid = orders s !! oid.
Proof.
  revert s. induction rows as [|row rows IH]; intros s Hn; [done|].
  rewrite fmap_cons, not_elem_of_cons in Hn. destruct Hn as [Hne Hn].
  simpl. rewrite IH by done. by apply sweep_one_other_order.
Qed.

Lemma purge_lookup now s oid :
  orders (purge now s) !! oid
  = o ← orders s !! oid; if decide (is_stale now o) then None else Some o.
Proof.
  unfold purge. simpl. rewrite map_lookup_filter.
  destruct (orders s !! oid) as [o|]; [|done]. simpl.
  destruct (decide (is_stale now o)).
  - rewrite option_guard_False; [done | tauto].
  - by rewrite option_guard_True.
Qed.

(** A fetched order whose payment the provider reports as succeeded is
    settled by the sweep and is still there, paid, when the sweep ends. *)
Lemma sweep_fold_settles now find_one rows s oid pid o :
  NoDup rows.*1 → (oid, pid) ∈ rows →
  orders s !! oid = Some o → find_one pid = Some "succeeded" →
  orders (foldl (sweep_one now find_one) s rows) !! oid
  = Some (set_order_status "paid" o).
Proof.
  revert s. induction rows as [|row rows IH]; intros s Hnd Hin Ho Hf.
  { by apply elem_of_nil in Hin. }
  rewrite fmap_cons in Hnd. apply NoDup_cons in Hnd as [Hfresh Hnd].
  apply elem_of_cons in Hin as [<- | Hin]; simpl.
  - rewrite sweep_fold_other_order by done. rewrite Hf. simpl.
    by apply settle_status.
  - apply IH; try done.
    rewrite sweep_one_other_order; [done|].
    intros ->. apply Hfresh. apply list_elem_of_fmap. by exists (row.1, pid).
Qed.

Lemma sweep_settles now find_one s oid o :
  orders s !! oid = Some o → is_pending now o →
  find_one (o_yookassa_payment_id o) = Some "succeeded" →
  orders (check_pending_payments now find_one s) !! oid
  = Some (set_order_status "paid" o).
Proof.
  intros Ho Hp Hf. unfold check_pending_payments. rewrite purge_lookup.
  rewrite (sweep_fold_settles now find_one _ s oid (o_yookassa_payment_id o) o);
    [| apply pending_orders_NoDup | apply elem_of_pending_orders; eauto
     | done | done].
  cbn [mbind option_bind].
  rewrite decide_False; [done|]. intros [[H|H] _]; discriminate H.
Qed.

(** ** Spending tokens *)

Lemma refund_debit amount u : refund amount (debit amount u) = u.
Proof. destruct u. unfold refund, debit. simpl. f_equal. lia. Qed.

Lemma alter_refund_debit amount uid (m : gmap string user) :
  alter (refund amount) uid (alter (debit amount) uid m) = m.
Proof.
  apply map_eq. intros k. destruct (decide (k = uid)) as [->|Hne].
  - rewrite !lookup_alter_eq. destruct (m !! uid); simpl; [|done].
    by rewrite refund_debit.
  - by rewrite !lookup_alter_ne.
Qed.

Lemma db_eta s : mk_db (users s) (orders s) (payments s) = s.
Proof. by destruct s. Qed.

Section HandleMessage.
Variables (available : bool) (generate : string → gen_result).
Variables (reply_raises : bool) (uid : string) (s : db).

Lemma handle_message_no_account :
  users s !! uid = None →
  handle_message available generate reply_raises uid s = (s, MsgInsufficient 0).
Proof. intros H. unfold handle_message, get_user_info. by rewrite H. Qed.

Lemma handle_message_insufficient u :
  users s !! uid = Some u → u_tokens u < COST_PER_REQUEST →
  handle_message available generate reply_raises uid s
  = (s, MsgInsufficient (u_tokens u)).
Proof.
  intros H Hlt. unfold handle_message, get_user_info. rewrite H. simpl.
  destruct (Z.ltb_spec (u_tokens u) COST_PER_REQUEST); [done | lia].
Qed.

Lemma handle_message_unavailable u :
  users s !! uid = Some u → COST_PER_REQUEST ≤ u_tokens u → available = false →
  handle_message available generate reply_raises uid s = (s, MsgUnavailable).
Proof.
  intros H Hle ->. unfold handle_message, get_user_info. rewrite H. simpl.
  destruct (Z.ltb_spec (u_tokens u) COST_PER_REQUEST); [lia | done].
Qed.

Lemma handle_message_answered u :
  users s !! uid = Some u → COST_PER_REQUEST ≤ u_tokens u →
  available = true → reply_raises = false →
  handle_message available generate reply_raises uid s
  = (mk_db (<[uid := debit COST_PER_REQUEST u]> (users s)) (orders s) (payments s),
     MsgAnswered (final_answer (try_models generate models_to_try (mk_answer "" 0)))
                 (u_tokens u - COST_PER_REQUEST)).
Proof.
  intros H Hle -> ->. unfold handle_message, get_user_info. rewrite H. simpl.
  destruct (Z.ltb_spec (u_tokens u) COST_PER_REQUEST); [lia|].
  rewrite lookup_alter_eq, H. simpl. do 2 f_equal.
  apply map_eq. intros k. destruct (decide (k = uid)) as [->|Hne].
  - by rewrite lookup_alter_eq, lookup_insert_eq, H.
  - by rewrite lookup_alter_ne, lookup_insert_ne.
Qed.

Lemma handle_message_refunded u :
  users s !! uid = Some u → COST_PER_REQUEST ≤ u_tokens u →
  available = true → reply_raises = true →
  handle_message available generate reply_raises uid s = (s, MsgRefunded).
Proof.
  intros H Hle -> ->. unfold handle_message, get_user_info. rewrite H. simpl.
  destruct (Z.ltb_spec (u_tokens u) COST_PER_REQUEST); [lia|].
  rewrite lookup_alter_eq, H. simpl.
  by rewrite alter_refund_debit, db_eta.
Qed.

End HandleMessage.

(** The outcomes, by what the request ends up paying. *)
Lemma handle_message_cases available generate reply_raises uid s :
  let r := handle_message available generate reply_raises uid s in
  (r.1 = s ∧ debited r.2 = 0)
  ∨ (∃ u, users s !! uid = Some u ∧ COST_PER_REQUEST ≤ u_tokens u
          ∧ debited r.2 = COST_PER_REQUEST
          ∧ r.1 = mk_db (<[uid := debit COST_PER_REQUEST u]> (users s))
                        (orders s) (payments s)).
Proof.
  destruct (users s !! uid) as [u|] eqn:H.
  2: { left. by rewrite handle_message_no_account. }
  destruct (Z.lt_ge_cases (u_tokens u) COST_PER_REQUEST) as [Hlt|Hle].
  { left. by rewrite (handle_message_insufficient _ _ _ _ _ u). }
  destruct available.
  2: { left. by rewrite (handle_message_unavailable _ _ _ _ _ u). }
  destruct reply_raises.
  - left. by rewrite (handle_message_refunded _ _ _ _ _ u).
  - right. exists u. by rewrite (handle_message_answered _ _ _ _ _ u).
Qed.


Lemma run_messages_balance uid reqs : ∀ s u,
  users s !! uid = Some u →
  let r := run_messages uid reqs s in
  tokens_of uid r.1 = Some (u_tokens u - total_debited r.2)
  ∧ (0 ≤ u_tokens u → 0 ≤ u_tokens u - total_debited r.2).
Proof.
  induction reqs as [|req reqs IH]; intros s u Hu; simpl.
  { unfold tokens_of. rewrite Hu. simpl. split; [f_equal; lia | lia]. }
  destruct (handle_message_cases (r_ollama_available req) (r_generate req)
              (r_reply_raises req) uid s) as [[E D] | (u' & Hu' & Hle & D & E)].
  - rewrite E, D. destruct (IH s u Hu) as [IH1 IH2]. split.
    + rewrite IH1. f_equal; lia.
    + intros H. specialize (IH2 H). lia.
  - rewrite E, D. rewrite Hu in Hu'. inversion Hu'; subst u'.
    set (s1 := mk_db _ _ _).
    assert (H1 : users s1 !! uid = Some (debit COST_PER_REQUEST u))
      by (subst s1; simpl; apply lookup_insert_eq).
    destruct (IH s1 _ H1) as [IH1 IH2]. simpl in IH1, IH2. split.
    + rewrite IH1. f_equal; lia.
    + intros H. lia.
Qed.

(** [k] requests that are served, on a balance that covers them. *)
Lemma run_served uid k : ∀ s u,
  users s !! uid = Some u → COST_PER_REQUEST * Z.of_nat k ≤ u_tokens u →
  let r := run_messages uid (replicate k served) s in
  tokens_of uid r.1 = Some (u_tokens u - COST_PER_REQUEST * Z.of_nat k)
  ∧ length r.2 = k
  ∧ Forall (λ reply, debited reply = COST_PER_REQUEST) r.2.
Proof.
  induction k as [|k IH]; intros s u Hu Hle; simpl.
  { unfold tokens_of. rewrite Hu. simpl. repeat split; [f_equal; lia | constructor]. }
  unfold COST_PER_REQUEST in *.
  rewrite (handle_message_answered true _ false uid s u Hu) by (unfold COST_PER_REQUEST; lia || done).
  simpl. set (s1 := mk_db _ _ _).
  assert (H1 : users s1 !! uid = Some (debit 10 u))
    by (subst s1; simpl; apply lookup_insert_eq).
  destruct (IH s1 _ H1) as (IH1 & IH2 & IH3); [simpl; lia|].
  simpl in IH1. repeat split.
  - rewrite IH1. f_equal; lia.
  - by rewrite IH2.
  - constructor; [done | exact IH3].
Qed.

(** C3. Text messages of one account handled one after the other, each at
    the cost of 10 tokens: the final balance is the initial balance minus
    the sum of what the answered requests paid, and it is not negative when
    the initial balance was not; a request is charged only on a balance of
    at least 10; on a smaller balance it is refused with the balance in the
    message and the database is unchanged. An account at 100 tokens is
    served 10 requests in a row and is at 0 afterwards; the 11th request is
    refused and the balance stays 0. *)
Theorem debits_add_up (user_id : string) (reqs : list request) (s : db) (u : user) :
  users s !! user_id = Some u →
  (let r := run_messages user_id reqs s in
   tokens_of user_id r.1 = Some (u_tokens u - total_debited r.2)
   ∧ (0 ≤ u_tokens u → 0 ≤ u_tokens u - total_debited r.2))
  ∧ (∀ req,
       let step := handle_message (r_ollama_available req) (r_generate req)
                     (r_reply_raises req) user_id s in
       (debited step.2 ≠ 0 → COST_PER_REQUEST ≤ u_tokens u)
       ∧ (u_tokens u < COST_PER_REQUEST →
          step = (s, MsgInsufficient (u_tokens u))))
  ∧ (u_tokens u = 100 →
     let r := run_messages user_id (replicate 11 served) s in
     tokens_of user_id r.1 = Some 0
     ∧ (debited <$> r.2) = (replicate 10 COST_PER_REQUEST ++ [0])%list
     ∧ last r.2 = Some (MsgInsufficient 0)
     ∧ tokens_of user_id (run_messages user_id (replicate 10 served) s).1 = Some 0).
Proof.
  intros Hu. split; [by apply run_messages_balance|]. split.
  - intros req step. split.
    + intros Hd. subst step.
      destruct (handle_message_cases (r_ollama_available req) (r_generate req)
                  (r_reply_raises req) user_id s) as [[_ D] | (u' & Hu' & Hle & _)].
      * contradiction.
      * rewrite Hu in Hu'. by inversion Hu'; subst.
    + intros Hlt. subst step. by apply handle_message_insufficient.
  - intros H100.
    destruct (run_served user_id 10 s u Hu) as (Hb & Hlen & Hall).
    { rewrite H100. unfold COST_PER_REQUEST. lia. }
    rewrite H100 in Hb. change (100 - COST_PER_REQUEST * Z.of_nat 10) with 0 in Hb.
    change 11%nat with (10 + 1)%nat. rewrite replicate_add.
    assert (Happ : ∀ l1 l2 s0,
      run_messages user_id (l1 ++ l2)%list s0
      = ((run_messages user_id l2 (run_messages user_id l1 s0).1).1,
         ((run_messages user_id l1 s0).2
           ++ (run_messages user_id l2 (run_messages user_id l1 s0).1).2)%list)).
    { induction l1 as [|a l1 IH]; intros l2 s0; simpl; [by destruct (run_messages _ l2 s0)|].
      by rewrite IH. }
    rewrite Happ. clear Happ.
    destruct (run_messages user_id (replicate 10 served) s) as [s10 replies].
    simpl in Hb, Hlen, Hall. rewrite <- Hlen. clear Hlen.
    unfold tokens_of in Hb.
    destruct (users s10 !! user_id) as [u10|] eqn:H10; [|discriminate].
    simpl in Hb. inversion Hb as [Ht].
    simpl. rewrite (handle_message_insufficient _ _ _ _ _ u10 H10)
      by (rewrite Ht; unfold COST_PER_REQUEST; lia).
    simpl. rewrite Ht. repeat split.
    + unfold tokens_of. by rewrite H10, <- Ht.
    + rewrite fmap_app. f_equal.
      clear -Hall.
      induction Hall as [|x l Hx Hall IH]; simpl; [done|].
      rewrite Hx. f_equal. exact IH.
    + by rewrite last_snoc.
    + unfold tokens_of. by rewrite H10, <- Ht.
Qed.

Lemma debits_add_up_witness :
  users demo_db !! "42" = Some (mk_user 100 0 0)
  ∧ tokens_of "42" (run_messages "42" (replicate 11 served) demo_db).1 = Some 0
  ∧ last (run_messages "42" (replicate 11 served) demo_db).2
    = Some (MsgInsufficient 0).
Proof.
  assert (H : users demo_db !! "42" = Some (mk_user 100 0 0))
    by (vm_compute; reflexivity).
  split; [exact H|].
  destruct (debits_add_up "42" [] demo_db (mk_user 100 0 0) H) as (_ & _ & Hs).
  destruct (Hs eq_refl) as (H0 & _ & Hl & _). split; [exact H0 | exact Hl].
Defined.

(** ** Failures after the debit *)

Lemma try_models_all_raise generate answer :
  llm_fails generate → try_models generate models_to_try answer = answer.
Proof.
  unfold llm_fails, models_to_try. rewrite !Forall_cons.
  intros (H1 & H2 & H3 & H4 & _). simpl. by rewrite H1, H2, H3, H4.
Qed.

(** C6, as the specification words it, does not hold: when every call of
    the language model raises, the loop over the models absorbs the
    exceptions, the apology is sent as the answer, and the 10 tokens stay
    debited. *)
Lemma llm_failure_is_charged :
  llm_fails (λ _, GenRaises)
  ∧ tokens_of "42" demo_db = Some 100
  ∧ handle_message true (λ _, GenRaises) false "42" demo_db
    = (mk_db (<["42" := mk_user 90 0 0]> (users demo_db))
             (orders demo_db) (payments demo_db),
       MsgAnswered apology 90)
  ∧ tokens_of "42" (handle_message true (λ _, GenRaises) false "42" demo_db).1
    = Some 90
  ∧ tokens_of "42" (handle_message true (λ _, GenRaises) false "42" demo_db).1
    ≠ tokens_of "42" demo_db.
Proof.
  split; [repeat constructor|]. split; [vm_compute; reflexivity|].
  assert (H : users demo_db !! "42" = Some (mk_user 100 0 0))
    by (vm_compute; reflexivity).
  rewrite (handle_message_answered true _ false "42" demo_db _ H)
    by (vm_compute; congruence || reflexivity).
  split; [reflexivity|]. split; vm_compute; [reflexivity | discriminate].
Qed.

(** What the handler does when every model call raises, on any database:
    the request is answered with the apology and charged. *)
Lemma llm_failure_keeps_debit generate uid s u :
  users s !! uid = Some u → COST_PER_REQUEST ≤ u_tokens u → llm_fails generate →
  handle_message true generate false uid s
  = (mk_db (<[uid := debit COST_PER_REQUEST u]> (users s)) (orders s) (payments s),
     MsgAnswered apology (u_tokens u - COST_PER_REQUEST)).
Proof.
  intros Hu Hle Hf.
  rewrite (handle_message_answered true generate false uid s u) by done.
  by rewrite try_models_all_raise.
Qed.

(** C6, amended. A debit followed by a failure that leaves the handler's
    [try] block as an exception (here: sending the answer raises) is undone
    by the refund: the handler returns the database it was given, so the
    balance is the one before the debit and [total_spent] is the same. The
    refund never writes [total_spent]. *)
Theorem refund_restores_balance
    (generate : string → gen_result) (user_id : string) (s : db) (u : user) :
  users s !! user_id = Some u → COST_PER_REQUEST ≤ u_tokens u →
  tokens_of user_id
    (mk_db (alter (debit COST_PER_REQUEST) user_id (users s)) (orders s) (payments s))
  = Some (u_tokens u - COST_PER_REQUEST)
  ∧ handle_message true generate true user_id s = (s, MsgRefunded)
  ∧ tokens_of user_id (handle_message true generate true user_id s).1
    = Some (u_tokens u)
  ∧ total_spent_of user_id (handle_message true generate true user_id s).1
    = Some (u_total_spent u)
  ∧ (∀ amount v, u_total_spent (refund amount v) = u_total_spent v).
Proof.
  intros Hu Hle.
  rewrite (handle_message_refunded true generate true user_id s u) by done.
  unfold tokens_of, total_spent_of. simpl. rewrite lookup_alter_eq, Hu. simpl.
  by repeat split.
Qed.

Lemma refund_restores_balance_witness :
  users demo_db !! "42" = Some (mk_user 100 0 0)
  ∧ handle_message true (λ _, GenRaises) true "42" demo_db = (demo_db, MsgRefunded).
Proof.
  assert (H : users demo_db !! "42" = Some (mk_user 100 0 0))
    by (vm_compute; reflexivity).
  split; [exact H|].
  apply (refund_restores_balance (λ _, GenRaises) "42" demo_db (mk_user 100 0 0) H).
  vm_compute. congruence.
Defined.

(** ** Creating an order *)

Lemma split_nonempty sep str : ∃ field fields, split sep str = field :: fields.
Proof.
  induction str as [|c rest (field & fields & IH)]; simpl; [by eauto|].
  destruct (Ascii.eqb c sep); [by eauto|]. rewrite IH. by eauto.
Qed.

(** The third field of a callback string made of two fixed words and an
    argument is the argument up to its first underscore. *)
Lemma third_field (word1 word2 arg : string) :
  split "_" word1 = [word1] → split "_" word2 = [word2] →
  ∃ field, split "_" (word1 +:+ "_" +:+ word2 +:+ "_" +:+ arg) !! 2%nat = Some field.
Proof.
  intros H1 H2.
  assert (App : ∀ w rest, split "_" w = [w] →
            split "_" (w +:+ "_" +:+ rest) = w :: split "_" rest).
  { induction w as [|c w IH]; intros rest Hw; simpl in *; [done|].
    destruct (Ascii.eqb c "_"); [discriminate|].
    destruct (split "_" w) as [|f fs] eqn:E; [|].
    - destruct (split_nonempty "_" w) as (f & fs & E'). congruence.
    - inversion Hw; subst. rewrite IH by done. done. }
  rewrite App by done. rewrite App by done.
  destruct (split_nonempty "_" arg) as (f & fs & ->). by exists f.
Qed.

Lemma prefix_empty str : String.prefix "" str = true.
Proof. by destruct str. Qed.

Lemma create_provider_raises now order_id user_id pack_id s :
  (create_yookassa_payment now order_id None user_id pack_id s).1 = s.
Proof. unfold create_yookassa_payment. by destruct (token_packs pack_id). Qed.

(** C4. [create_yookassa_payment] when [Payment.create] raises: the
    database is the one before, no order and no payment row is added, for
    every user, pack and fresh id, also when the call comes through the
    button. The rows are written only with the id the provider returned: a
    call that changes the database had [Payment.create] return one, and
    then both rows carry it. *)
Theorem create_is_all_or_nothing
    (now : Z) (order_id user_id pack_id : string) (s : db) :
  create_yookassa_payment now order_id None user_id pack_id s
  = (s, match token_packs pack_id with
        | Some _ => CreateFailed | None => CreatePackNotFound end)
  ∧ (∀ w, w_create w = None →
       (button_handler w user_id ("create_payment_" +:+ pack_id) s).1 = s)
  ∧ (∀ created,
       (create_yookassa_payment now order_id created user_id pack_id s).1 ≠ s →
       ∃ payment_id pk,
         created = Some payment_id ∧ token_packs pack_id = Some pk
         ∧ orders s !! order_id = None
         ∧ orders (create_yookassa_payment now order_id created user_id pack_id s).1
             !! order_id
           = Some (mk_order user_id pack_id (pk_tokens pk) (pk_price pk)
                            payment_id "created" now)
         ∧ ∃ description,
             payments (create_yookassa_payment now order_id created user_id pack_id s).1
             = (payments s ++
                  [mk_payment user_id (pk_price pk) (pk_tokens pk) payment_id
                              "pending" description now now])%list).
Proof.
  split; [|split].
  - unfold create_yookassa_payment. by destruct (token_packs pack_id).
  - intros w Hw. unfold button_handler.
    change ("create_payment_" +:+ pack_id)
      with ("create" +:+ "_" +:+ "payment" +:+ "_" +:+ pack_id).
    destruct (third_field "create" "payment" pack_id eq_refl eq_refl) as [f Hf].
    simpl in Hf |- *. rewrite Hf. cbv zeta. rewrite Hw.
    rewrite prefix_empty. cbn [fst snd]. apply create_provider_raises.
  - intros created Hne. unfold create_yookassa_payment in *.
    destruct (token_packs pack_id) as [pk|]; [|done].
    destruct created as [payment_id|]; [|done].
    destruct (orders s !! order_id) eqn:Ho; [done|].
    exists payment_id, pk. simpl. rewrite lookup_insert_eq.
    repeat split; eauto.
Qed.

(** ** The operations, case by case *)

Lemma check_payment_status_cases now find_one oid s :
  (check_payment_status now find_one oid s).1 = s
  ∨ ∃ o, orders s !! oid = Some o ∧ o_status o ≠ "paid"
         ∧ find_one (o_yookassa_payment_id o) = Some "succeeded"
         ∧ check_payment_status now find_one oid s
           = (process_successful_payment now (o_yookassa_payment_id o) oid s,
              CheckConfirmed).
Proof.
  unfold check_payment_status.
  destruct (orders s !! oid) as [o|] eqn:Ho; [|by left].
  destruct (String.eqb_spec (o_status o) "paid") as [|Hp]; [by left|].
  destruct (find_one (o_yookassa_payment_id o)) as [st|] eqn:Hf; [|by left].
  destruct (String.eqb_spec st "succeeded") as [->|].
  - right. by exists o.
  - left. by destruct (String.eqb st "pending").
Qed.

Lemma create_yookassa_payment_cases now order_id created uid pack_id s :
  (create_yookassa_payment now order_id created uid pack_id s).1 = s
  ∨ ∃ payment_id pk,
      created = Some payment_id ∧ token_packs pack_id = Some pk
      ∧ orders s !! order_id = None
      ∧ (create_yookassa_payment now order_id created uid pack_id s).1
        = mk_db (users s)
            (<[order_id := mk_order uid pack_id (pk_tokens pk) (pk_price pk)
                             payment_id "created" now]> (orders s))
            (payments s ++
               [mk_payment uid (pk_price pk) (pk_tokens pk) payment_id "pending"
                  ("Покупка " +:+ with_commas (pk_tokens pk) +:+ " токенов")
                  now now])%list.
Proof.
  unfold create_yookassa_payment.
  destruct (token_packs pack_id) as [pk|]; [|by left].
  destruct created as [payment_id|]; [|by left].
  destruct (orders s !! order_id) eqn:Ho; [by left|].
  right. by exists payment_id, pk.
Qed.

Lemma button_handler_cases w uid data s :
  (button_handler w uid data s).1 = s
  ∨ (∃ pack_id, (button_handler w uid data s).1
       = (create_yookassa_payment (w_now w) (w_uuid4 w) (w_create w) uid pack_id s).1)
  ∨ (∃ oid, (button_handler w uid data s).1
       = (check_payment_status (w_now w) (w_find_one w) oid s).1).
Proof.
  unfold button_handler.
  repeat (match goal with
          | |- context [if ?b then _ else _] => destruct b; [by left|]
          end).
  destruct (String.prefix "create_payment_" data).
  { destruct (split "_" data !! 2%nat) as [pack_id|]; [|by left].
    right. left. by exists pack_id. }
  destruct (String.prefix "check_payment_" data).
  { destruct (split "_" data !! 2%nat) as [oid|]; [|by left].
    right. right. by exists oid. }
  destruct (String.prefix "cancel_order_" data); [|by left].
  by destruct (split "_" data !! 2%nat); left.
Qed.

(** A property of the database before and after that holds for every
    method holds for every operation. *)
Lemma run_op_ind (P : db → db → Prop) :
  (∀ s, P s s) →
  (∀ now uid s, P s (register_user now uid s)) →
  (∀ a g r uid s, P s (handle_message a g r uid s).1) →
  (∀ now oid c uid pk s, P s (create_yookassa_payment now oid c uid pk s).1) →
  (∀ now f oid s, P s (check_payment_status now f oid s).1) →
  (∀ now f s, P s (check_pending_payments now f s)) →
  ∀ w o s, P s (run_op w o s).
Proof.
  intros Hid Hreg Hmsg Hcreate Hcheck Hsweep w o s.
  destruct o as [uid | uid | uid | uid data |]; simpl; auto.
  destruct (button_handler_cases w uid data s) as [-> | [[pk ->] | [oid ->]]]; auto.
Qed.

(** ** [total_spent] moves only with an order that becomes paid *)

(** The accounts after a settlement, in terms of the accounts before. *)
Lemma settle_users now pid oid s uid u' :
  users (process_successful_payment now pid oid s) !! uid = Some u' →
  ∃ u, users s !! uid = Some u
       ∧ (u_total_spent u' ≠ u_total_spent u →
          ∃ o, orders s !! oid = Some o ∧ o_user_id o = uid
               ∧ o_status o ≠ "paid"
               ∧ orders (process_successful_payment now pid oid s) !! oid
                 = Some (set_order_status "paid" o)).
Proof.
  intros Hu'. destruct (orders s !! oid) as [o|] eqn:Ho.
  2: { rewrite settle_absent in Hu' by done. exists u'. split; [done|]. congruence. }
  destruct (decide (o_status o = "paid")) as [Hp|Hp].
  { rewrite (settle_paid _ _ _ _ o) in Hu' by done.
    exists u'. split; [done|]. congruence. }
  pose proof (settle_status now pid oid s o Ho) as Hst.
  rewrite (settle_unpaid _ _ _ _ o) in Hu' by done. simpl in Hu'.
  destruct (decide (uid = o_user_id o)) as [->|Hne].
  - rewrite lookup_alter_eq in Hu'.
    destruct (users s !! o_user_id o) as [u|]; [|discriminate].
    exists u. split; [done|]. intros _. by exists o.
  - rewrite lookup_alter_ne in Hu' by done.
    exists u'. split; [done|]. congruence.
Qed.

Lemma sweep_one_users now find_one s row uid u' :
  users (sweep_one now find_one s row) !! uid = Some u' →
  ∃ u, users s !! uid = Some u
       ∧ (u_total_spent u' ≠ u_total_spent u →
          ∃ o, orders s !! row.1 = Some o ∧ o_user_id o = uid
               ∧ o_status o ≠ "paid"
               ∧ orders (sweep_one now find_one s row) !! row.1
                 = Some (set_order_status "paid" o)).
Proof.
  destruct row as [oid pid]. simpl.
  destruct (find_one pid) as [st|].
  2: { intros H. exists u'. split; [done|]. congruence. }
  destruct (String.eqb st "succeeded"); [apply settle_users|].
  destruct (String.eqb st "canceled" || String.eqb st "failed"); simpl;
    intros H; exists u'; (split; [done|]); congruence.
Qed.

Lemma sweep_fold_users now find_one rows : ∀ s uid u',
  NoDup rows.*1 →
  users (foldl (sweep_one now find_one) s rows) !! uid = Some u' →
  ∃ u, users s !! uid = Some u
       ∧ (u_total_spent u' ≠ u_total_spent u →
          ∃ oid o, orders s !! oid = Some o ∧ o_user_id o = uid
               ∧ o_status o ≠ "paid"
               ∧ orders (foldl (sweep_one now find_one) s rows) !! oid
                 = Some (set_order_status "paid" o)).
Proof.
  induction rows as [|row rows IH]; intros s uid u' Hnd Hu'; simpl in Hu' |- *.
  { exists u'. split; [done|]. congruence. }
  rewrite fmap_cons in Hnd. apply NoDup_cons in Hnd as [Hfresh Hnd].
  destruct (IH _ _ _ Hnd Hu') as (ua & Hua & Hrest).
  destruct (sweep_one_users _ _ _ _ _ _ Hua) as (u & Hu & Hfirst).
  exists u. split; [done|]. intros Hdiff.
  destruct (decide (u_total_spent u' = u_total_spent ua)) as [E|Hd].
  - destruct Hfirst as (o & Ho & Huid & Hp & Hpaid); [congruence|].
    exists row.1, o. repeat split; try done.
    by rewrite sweep_fold_other_order.
  - destruct (Hrest Hd) as (oid & o & Ho & Huid & Hp & Hpaid).
    exists oid, o. repeat split; try done.
    destruct (decide (oid = row.1)) as [->|Hne];
      [|by rewrite <- (sweep_one_other_order now find_one s row oid)].
    (* the order of this row: settled now or not, it was not paid before *)
    exfalso. rewrite sweep_fold_other_order in Hpaid by done.
    assert (E : o = set_order_status "paid" o) by congruence.
    apply (f_equal o_status) in E. simpl in E. contradiction.
Qed.

Lemma purge_keeps_paid now s oid o :
  orders s !! oid = Some o → o_status o = "paid" →
  orders (purge now s) !! oid = Some o.
Proof.
  intros Ho Hp. rewrite purge_lookup, Ho. cbn [mbind option_bind].
  rewrite decide_False; [done|].
  unfold is_stale. rewrite Hp. intros [[H|H] _]; discriminate H.
Qed.

Lemma spent_justified_refl s : spent_justified s s.
Proof. intros uid u u' Hu Hu' Hd. congruence. Qed.

Lemma spent_justified_same_users s s' :
  users s' = users s → spent_justified s s'.
Proof. intros E uid u u' Hu Hu' Hd. rewrite E in Hu'. congruence. Qed.

Lemma spent_justified_settle now pid oid s :
  spent_justified s (process_successful_payment now pid oid s).
Proof.
  intros uid u u' Hu Hu' Hd.
  destruct (settle_users _ _ _ _ _ _ Hu') as (u0 & Hu0 & H).
  assert (u0 = u) by congruence. subst u0.
  destruct (H Hd) as (o & Ho & Huid & Hp & Hpaid).
  exists oid, o. unfold order_status. by rewrite Hpaid.
Qed.

Lemma spent_justified_check now find_one oid s :
  spent_justified s (check_payment_status now find_one oid s).1.
Proof.
  destruct (check_payment_status_cases now find_one oid s)
    as [-> | (o & _ & _ & _ & ->)].
  - apply spent_justified_refl.
  - apply spent_justified_settle.
Qed.

Lemma spent_justified_sweep now find_one s :
  spent_justified s (check_pending_payments now find_one s).
Proof.
  intros uid u u' Hu Hu' Hd. unfold check_pending_payments in *.
  simpl in Hu'.
  destruct (sweep_fold_users _ _ _ _ _ _ (pending_orders_NoDup now s) Hu')
    as (u0 & Hu0 & H).
  assert (u0 = u) by congruence. subst u0.
  destruct (H Hd) as (oid & o & Ho & Huid & Hp & Hpaid).
  exists oid, o. unfold order_status.
  by rewrite (purge_keeps_paid _ _ _ _ Hpaid).
Qed.

Lemma spent_justified_message a g r uid s :
  spent_justified s (handle_message a g r uid s).1.
Proof.
  destruct (handle_message_cases a g r uid s) as [[-> _] | (u & Hu & _ & _ & ->)].
  - apply spent_justified_refl.
  - intros k v v' Hv Hv' Hd. simpl in Hv'. exfalso. apply Hd.
    destruct (decide (k = uid)) as [->|Hne].
    + rewrite lookup_insert_eq in Hv'.
      assert (v = u) by congruence. subst v. by inversion Hv'.
    + rewrite lookup_insert_ne in Hv' by done. congruence.
Qed.

Lemma spent_justified_op w o s : spent_justified s (run_op w o s).
Proof.
  revert w o s. apply run_op_ind.
  - apply spent_justified_refl.
  - intros now uid s k v v' Hv Hv' Hd. unfold register_user in Hv'.
    destruct (users s !! uid) eqn:E; [congruence|]. simpl in Hv'.
    rewrite lookup_insert_ne in Hv' by congruence. congruence.
  - apply spent_justified_message.
  - intros now oid c uid pk s. apply spent_justified_same_users.
    destruct (create_yookassa_payment_cases now oid c uid pk s)
      as [-> | (? & ? & _ & _ & _ & ->)]; done.
  - apply spent_justified_check.
  - apply spent_justified_sweep.
Qed.

(** One settlement of an order that is not yet paid: the account of the
    order, when there is one, has the order's [tokens] more and its
    [total_spent] is higher by
    the order's [price], both as stored in the order row; the order is
    ['paid']; the payment rows with the given provider id are ['completed']
    with [updated] set to the time of the call; nothing else changes, and
    the method returns the one database with all of it. For every operation
    of the bot, an account's [total_spent] differs afterwards only if one of
    its orders, not paid before, is paid after. *)
Theorem settlement_effect
    (now : Z) (payment_id order_id : string) (s : db) (o : order) :
  orders s !! order_id = Some o → o_status o ≠ "paid" →
  let s' := process_successful_payment now payment_id order_id s in
  (∀ u, users s !! o_user_id o = Some u →
        users s' !! o_user_id o
        = Some (mk_user (u_tokens u + o_tokens o) (u_total_spent u + o_price o)
                        (u_registered u)))
  ∧ (∀ uid, uid ≠ o_user_id o → users s' !! uid = users s !! uid)
  ∧ orders s' !! order_id
    = Some (mk_order (o_user_id o) (o_pack_id o) (o_tokens o) (o_price o)
                     (o_yookassa_payment_id o) "paid" (o_created o))
  ∧ (∀ oid, oid ≠ order_id → orders s' !! oid = orders s !! oid)
  ∧ length (payments s') = length (payments s)
  ∧ (∀ i p, payments s !! i = Some p →
       if String.eqb (p_yookassa_id p) payment_id
       then ∃ q, payments s' !! i = Some q ∧ p_status q = "completed"
                 ∧ p_updated q = now ∧ same_record p q
       else payments s' !! i = Some p)
  ∧ (∀ w op s0, spent_justified s0 (run_op w op s0)).
Proof.
  intros Ho Hp s'. subst s'. rewrite (settle_unpaid _ _ _ _ o Ho Hp). simpl.
  split; [|split; [|split; [|split; [|split; [|split]]]]].
  - intros u Hu. by rewrite lookup_alter_eq, Hu.
  - intros uid Hne. by rewrite lookup_alter_ne.
  - by rewrite lookup_alter_eq, Ho.
  - intros oid Hne. by rewrite lookup_alter_ne.
  - apply update_payments_length.
  - intros i p Hi. rewrite update_payments_lookup, Hi. simpl.
    destruct (String.eqb (p_yookassa_id p) payment_id); [|done].
    exists (complete_payment now p). by repeat split.
  - apply spent_justified_op.
Qed.

Lemma settlement_effect_witness :
  orders demo_db !! "ord-1" = Some demo_order
  ∧ users (process_successful_payment 1100 "pay-1" "ord-1" demo_db) !! "42"
    = Some (mk_user 1100 100 0).
Proof.
  assert (H : orders demo_db !! "ord-1" = Some demo_order) by (vm_compute; reflexivity).
  split; [exact H|].
  assert (Hp : o_status demo_order ≠ "paid") by (vm_compute; discriminate).
  destruct (settlement_effect 1100 "pay-1" "ord-1" demo_db demo_order H Hp)
    as (Hu & _).
  apply (Hu (mk_user 100 0 0)). vm_compute. reflexivity.
Defined.

(** ** An order of a user without an account *)

Example unregistered_db_is_reached :
  users unregistered_db = ∅
  ∧ orders unregistered_db !! "ord-1"
    = Some (mk_order "7" "small" 1000 100 "pay-1" "created" 1000)
  ∧ p_status <$> payments unregistered_db = ["pending"].
Proof. repeat split; vm_compute; reflexivity. Qed.

(** C1. The order of a user who never sent /start, settled twice. The
    button of the pack makes the order without looking at [users]; the two
    settlements leave the order ['paid'] and the second one changes nothing,
    but the UPDATE of [users] matches no row: no account has received the
    1000 tokens of the order, not once, and the account the user gets by
    registering afterwards has the 100 tokens of a new account. *)
Theorem settle_twice_without_account :
  let s1 := process_successful_payment 1100 "pay-1" "ord-1" unregistered_db in
  let s2 := process_successful_payment 1200 "pay-1" "ord-1" s1 in
  orders unregistered_db !! "ord-1"
  = Some (mk_order "7" "small" 1000 100 "pay-1" "created" 1000)
  ∧ users unregistered_db = ∅
  ∧ order_status "ord-1" s2 = Some "paid"
  ∧ s2 = s1
  ∧ users s2 = ∅
  ∧ tokens_of "7" s2 = None
  ∧ tokens_of "7" (register_user 1300 "7" s2) = Some 100
  ∧ process_successful_payment 1400 "pay-1" "ord-1" (register_user 1300 "7" s2)
    = register_user 1300 "7" s2.
Proof. repeat split; vm_compute; reflexivity. Qed.

(** C5. The same order settled once, by the sweep that follows the
    purchase: the order becomes ['paid'] and its payment row ['completed']
    with the time of the sweep, and the table of the accounts is as empty as
    before: no account has 1000 tokens more and no [total_spent] is 100
    higher. *)
Theorem settlement_without_account :
  let s' := run_ops [(buyer_world, OpButton "7" "create_payment_small");
                     (sweep_world, OpSweep)] init_db in
  orders s' !! "ord-1" = Some (mk_order "7" "small" 1000 100 "pay-1" "paid" 1000)
  ∧ payments s'
    = [mk_payment "7" 100 1000 "pay-1" "completed" "Покупка 1,000 токенов" 1000 1030]
  ∧ users s' = ∅
  ∧ users s' = users unregistered_db
  ∧ total_spent_of "7" s' = None
  ∧ s' = process_successful_payment 1030 "pay-1" "ord-1" unregistered_db.
Proof. repeat split; vm_compute; reflexivity. Qed.

(** ** Payment rows are kept *)

Lemma same_record_refl p : same_record p p.
Proof. by repeat split. Qed.

Lemma payments_kept_refl ps : payments_kept ps ps.
Proof. intros i p Hi. exists p. split; [done | apply same_record_refl]. Qed.

Lemma payments_kept_trans ps qs rs :
  payments_kept ps qs → payments_kept qs rs → payments_kept ps rs.
Proof.
  intros H1 H2 i p Hi.
  destruct (H1 i p Hi) as (q & Hq & S1). destruct (H2 i q Hq) as (r & Hr & S2).
  exists r. split; [done|]. unfold same_record in *.
  destruct S1 as (? & ? & ? & ? & ? & ?), S2 as (? & ? & ? & ? & ? & ?).
  repeat split; congruence.
Qed.

Lemma payments_kept_update f pid ps :
  (∀ p, same_record p (f p)) → payments_kept ps (update_payments f pid ps).
Proof.
  intros Hf i p Hi. rewrite update_payments_lookup, Hi. simpl.
  destruct (String.eqb (p_yookassa_id p) pid); eauto using same_record_refl.
Qed.

Lemma payments_kept_settle now pid oid s :
  payments_kept (payments s) (payments (process_successful_payment now pid oid s)).
Proof.
  unfold process_successful_payment.
  destruct (orders s !! oid) as [o|]; [|apply payments_kept_refl].
  destruct (String.eqb (o_status o) "paid"); [apply payments_kept_refl|].
  simpl. apply payments_kept_update. intros p. by repeat split.
Qed.

Lemma payments_kept_sweep_one now find_one s row :
  payments_kept (payments s) (payments (sweep_one now find_one s row)).
Proof.
  destruct row as [oid pid]. simpl.
  destruct (find_one pid) as [st|]; [|apply payments_kept_refl].
  destruct (String.eqb st "succeeded"); [apply payments_kept_settle|].
  destruct (String.eqb st "canceled" || String.eqb st "failed");
    [|apply payments_kept_refl].
  simpl. apply payments_kept_update. intros p. by repeat split.
Qed.

Lemma payments_kept_sweep now find_one s :
  payments_kept (payments s) (payments (check_pending_payments now find_one s)).
Proof.
  unfold check_pending_payments. simpl.
  generalize (pending_orders now s). intros rows. revert s.
  induction rows as [|row rows IH]; intros s; simpl; [apply payments_kept_refl|].
  eapply payments_kept_trans; [apply payments_kept_sweep_one | apply IH].
Qed.

Lemma payments_kept_op w o s : payments_kept (payments s) (payments (run_op w o s)).
Proof.
  revert w o s.
  apply (run_op_ind (λ s s', payments_kept (payments s) (payments s'))).
  - intros s. apply payments_kept_refl.
  - intros now uid s. unfold register_user.
    destruct (users s !! uid); apply payments_kept_refl.
  - intros a g r uid s.
    destruct (handle_message_cases a g r uid s) as [[-> _] | (u & _ & _ & _ & ->)];
      apply payments_kept_refl.
  - intros now oid c uid pk s.
    destruct (create_yookassa_payment_cases now oid c uid pk s)
      as [-> | (? & ? & _ & _ & _ & ->)]; [apply payments_kept_refl|].
    simpl. intros i p Hi. exists p. split; [|apply same_record_refl].
    by apply lookup_app_l_Some.
  - intros now f oid s.
    destruct (check_payment_status_cases now f oid s) as [-> | (o & _ & _ & _ & ->)];
      [apply payments_kept_refl | apply payments_kept_settle].
  - intros now f s. apply payments_kept_sweep.
Qed.

Lemma payments_kept_ops ops : ∀ s,
  payments_kept (payments s) (payments (run_ops ops s)).
Proof.
  unfold run_ops. induction ops as [|[w o] ops IH]; intros s; simpl.
  - apply payments_kept_refl.
  - eapply payments_kept_trans; [apply payments_kept_op | apply IH].
Qed.

(** ** The purge *)

(** C8, as the specification words it, does not hold: an order in status
    ['paid'] made more than 7 days ago is a terminal order older than the
    retention window, and the DELETE, which names the statuses ['failed']
    and ['canceled'], leaves it in the table. *)
Lemma paid_order_is_not_purged :
  let now := 1000 + 8 * 86400 in
  orders demo_paid_db !! "ord-1" = Some (set_order_status "paid" demo_order)
  ∧ o_created demo_order < now - seven_days
  ∧ orders (purge now demo_paid_db) !! "ord-1"
    = Some (set_order_status "paid" demo_order)
  ∧ orders (check_pending_payments now (provider "succeeded") demo_paid_db) !! "ord-1"
    = Some (set_order_status "paid" demo_order).
Proof. vm_compute. repeat split; reflexivity. Qed.

(** C8, amended. The DELETE at the end of a sweep removes exactly the orders
    whose status is ['failed'] or ['canceled'] and that were made more than
    7 days before the sweep; every other order, the paid ones among them,
    stays as it is, and so do the accounts and the payment rows. No handler
    and no sweep, alone or in sequence, removes a payment row: each row is
    still at its place afterwards, with at most its status and [updated]
    rewritten. *)
Theorem purge_deletes_stale_failed (now : Z) (s : db) :
  (∀ oid,
     orders (purge now s) !! oid = None
     ↔ orders s !! oid = None
       ∨ ∃ o, orders s !! oid = Some o
              ∧ (o_status o = "failed" ∨ o_status o = "canceled")
              ∧ o_created o < now - seven_days)
  ∧ (∀ oid o, orders (purge now s) !! oid = Some o → orders s !! oid = Some o)
  ∧ users (purge now s) = users s
  ∧ payments (purge now s) = payments s
  ∧ (∀ find_one,
       check_pending_payments now find_one s
       = purge now (foldl (sweep_one now find_one) s (pending_orders now s)))
  ∧ (∀ ops, payments_kept (payments s) (payments (run_ops ops s))).
Proof.
  split; [|split; [|split; [|split; [|split]]]]; try done.
  - intros oid. rewrite purge_lookup.
    destruct (orders s !! oid) as [o|]; cbn [mbind option_bind]; [|by split; auto].
    destruct (decide (is_stale now o)) as [Hs|Hs]; split; try done.
    + intros _. right. by exists o.
    + intros [H | (o' & E & Hst)]; [done|]. inversion E; subst o'.
      exfalso. by apply Hs.
  - intros oid o. rewrite purge_lookup.
    destruct (orders s !! oid) as [o0|]; cbn [mbind option_bind]; [|done].
    by destruct (decide (is_stale now o0)).
  - intros ops. apply payments_kept_ops.
Qed.

(** ** What the synchronous check writes *)

(** The check writes only through a settlement: unless the provider reports
    ['succeeded'], the database is as before. *)
Lemma check_writes_on_success_only now find_one oid s :
  (∀ o, orders s !! oid = Some o →
        find_one (o_yookassa_payment_id o) ≠ Some "succeeded") →
  (check_payment_status now find_one oid s).1 = s.
Proof.
  intros H.
  destruct (check_payment_status_cases now find_one oid s)
    as [E | (o & Ho & _ & Hf & _)]; [done|].
  by destruct (H o Ho).
Qed.

(** C7. The synchronous check of an order whose payment the provider
    reports as canceled answers the user and writes nothing: the order
    remains ['created'] and its payment row ['pending']. The sweep run on
    the same database with the same provider answer records the failure in
    both tables. A report of ['pending'] leaves the database as it is. *)
Theorem check_does_not_record_failure :
  check_payment_status 1030 (provider "canceled") "ord-1" demo_db
  = (demo_db, CheckFailedOrCanceled)
  ∧ check_payment_status 1030 (provider "failed") "ord-1" demo_db
    = (demo_db, CheckFailedOrCanceled)
  ∧ order_status "ord-1" demo_db = Some "created"
  ∧ p_status <$> payments demo_db = ["pending"]
  ∧ order_status "ord-1" (check_pending_payments 1030 (provider "canceled") demo_db)
    = Some "failed"
  ∧ p_status <$> payments (check_pending_payments 1030 (provider "canceled") demo_db)
    = ["failed"]
  ∧ check_payment_status 1030 (provider "pending") "ord-1" demo_db
    = (demo_db, CheckNotYet).
Proof. repeat split; vm_compute; reflexivity. Qed.

(** ** Terminal states *)

Lemma paid_kept_op w o s : paid_kept s (run_op w o s).
Proof.
  revert w o s. apply run_op_ind.
  - by intros s oid o Ho Hp.
  - intros now uid s oid o Ho Hp. unfold register_user.
    by destruct (users s !! uid).
  - intros a g r uid s oid o Ho Hp.
    by destruct (handle_message_cases a g r uid s) as [[-> _] | (u & _ & _ & _ & ->)].
  - intros now k c uid pk s oid o Ho Hp.
    destruct (create_yookassa_payment_cases now k c uid pk s)
      as [-> | (? & ? & _ & _ & Hfresh & ->)]; [done|].
    simpl. rewrite lookup_insert_ne; [done | congruence].
  - intros now f k s oid o Ho Hp.
    destruct (check_payment_status_cases now f k s) as [-> | (o' & Ho' & Hp' & _ & ->)];
      [done|]. simpl.
    rewrite settle_other_order; [done | congruence].
  - intros now f s oid o Ho Hp. unfold check_pending_payments.
    apply purge_keeps_paid; [|done].
    rewrite sweep_fold_other_order; [done|].
    rewrite elem_of_pending_ids. intros (o' & Ho' & Hc & _).
    rewrite Ho in Ho'. inversion Ho'; subst o'. rewrite Hp in Hc. discriminate.
Qed.

Lemma paid_kept_ops ops : ∀ s, paid_kept s (run_ops ops s).
Proof.
  unfold run_ops. induction ops as [|[w o] ops IH]; intros s oid ord Ho Hp; simpl.
  - done.
  - apply IH; [|done]. by apply paid_kept_op.
Qed.

(** The sweep and an order it does not fetch: removing the order before the
    sweep or after it gives the same database. *)
Lemma sweep_one_without now find_one oid s row :
  row.1 ≠ oid →
  sweep_one now find_one (without_order oid s) row
  = without_order oid (sweep_one now find_one s row).
Proof.
  destruct row as [k pid]. simpl. intros Hne.
  destruct (find_one pid) as [st|]; [|done].
  destruct (String.eqb st "succeeded").
  - unfold process_successful_payment, without_order. simpl.
    rewrite lookup_delete_ne by done.
    destruct (orders s !! k) as [o|]; [|done].
    destruct (String.eqb (o_status o) "paid"); [done|]. simpl.
    by rewrite delete_alter_ne.
  - destruct (String.eqb st "canceled" || String.eqb st "failed"); [|done].
    unfold without_order. simpl. by rewrite delete_alter_ne.
Qed.

Lemma sweep_fold_without now find_one oid rows : ∀ s,
  oid ∉ rows.*1 →
  foldl (sweep_one now find_one) (without_order oid s) rows
  = without_order oid (foldl (sweep_one now find_one) s rows).
Proof.
  induction rows as [|row rows IH]; intros s Hn; [done|].
  rewrite fmap_cons, not_elem_of_cons in Hn. destruct Hn as [Hne Hn].
  simpl. rewrite sweep_one_without by done. by apply IH.
Qed.

Lemma not_created_not_fetched now s oid :
  (∀ o, orders s !! oid = Some o → o_status o ≠ "created") →
  oid ∉ (pending_orders now s).*1.
Proof.
  intros H. rewrite elem_of_pending_ids. intros (o & Ho & Hc & _).
  by apply (H o Ho).
Qed.

Lemma sweep_without now find_one oid s :
  (∀ o, orders s !! oid = Some o → o_status o ≠ "created") →
  check_pending_payments now find_one (without_order oid s)
  = without_order oid (check_pending_payments now find_one s).
Proof.
  intros H. unfold check_pending_payments.
  assert (E : pending_orders now (without_order oid s) = pending_orders now s).
  { unfold pending_orders, without_order. simpl. f_equal. f_equal.
    apply map_filter_delete_not. intros o Ho [Hc _]. by apply (H o Ho). }
  rewrite E, sweep_fold_without by (by apply not_created_not_fetched).
  unfold purge, without_order. simpl. by rewrite map_filter_delete.
Qed.

Lemma left_created_settle now pid k s :
  left_created_kept s (process_successful_payment now pid k s).
Proof.
  intros oid o o' Ho Hc Ho'. destruct (decide (oid = k)) as [->|Hne].
  - rewrite (settle_status _ _ _ _ o Ho) in Ho'. inversion Ho'. simpl. discriminate.
  - rewrite settle_other_order in Ho' by done. congruence.
Qed.

Lemma left_created_op w op s : left_created_kept s (run_op w op s).
Proof.
  revert w op s. apply run_op_ind.
  - intros s oid o o' Ho Hc Ho'. congruence.
  - intros now uid s oid o o' Ho Hc Ho'. unfold register_user in Ho'.
    destruct (users s !! uid); simpl in Ho'; congruence.
  - intros a g r uid s oid o o' Ho Hc Ho'.
    destruct (handle_message_cases a g r uid s) as [[E _] | (u & _ & _ & _ & E)];
      rewrite E in Ho'; simpl in Ho'; congruence.
  - intros now k c uid pk s oid o o' Ho Hc Ho'.
    destruct (create_yookassa_payment_cases now k c uid pk s)
      as [E | (? & ? & _ & _ & Hfresh & E)]; rewrite E in Ho'; [congruence|].
    simpl in Ho'. rewrite lookup_insert_ne in Ho' by congruence. congruence.
  - intros now f k s.
    destruct (check_payment_status_cases now f k s) as [-> | (? & _ & _ & _ & ->)].
    + intros oid o o' Ho Hc Ho'. congruence.
    + apply left_created_settle.
  - intros now f s oid o o' Ho Hc Ho'. unfold check_pending_payments in Ho'.
    rewrite purge_lookup, sweep_fold_other_order, Ho in Ho'.
    + cbn [mbind option_bind] in Ho'.
      destruct (decide (is_stale now o)); congruence.
    + apply not_created_not_fetched. intros o0 Ho0. congruence.
Qed.

(** C2, as the specification words it, does not hold: the order of the
    sample was recorded as ['failed'] by a sweep; the synchronous check,
    whose guard is [status != 'paid'], settles it when the provider reports
    ['succeeded']: the order becomes ['paid'] and the account is credited. *)
Lemma failed_order_gets_paid :
  order_status "ord-1" demo_failed_db = Some "failed"
  ∧ tokens_of "42" demo_failed_db = Some 100
  ∧ order_status "ord-1"
      (check_payment_status 1100 (provider "succeeded") "ord-1" demo_failed_db).1
    = Some "paid"
  ∧ tokens_of "42"
      (check_payment_status 1100 (provider "succeeded") "ord-1" demo_failed_db).1
    = Some 1100.
Proof. repeat split; vm_compute; reflexivity. Qed.

(** C2, amended. ['paid'] is terminal: no operation of the bot, and no
    sequence of them, changes or removes a paid order, and a settlement or a
    synchronous check of a paid order leaves the whole database as it is.
    ['failed'] is terminal for the sweep: an order that is not ['created'] is
    not fetched, the sweep acts on the rest of the database as if the order
    were not there, and leaves the order as it is or, when it is stale,
    deletes it; and no operation takes such an order back to ['created'].
    The synchronous check leaves a failed order as it is unless the provider
    reports ['succeeded']; then it settles it. *)
Theorem paid_is_terminal
    (now : Z) (find_one : string → option string) (payment_id order_id : string)
    (s : db) (o : order) :
  orders s !! order_id = Some o →
  (o_status o = "paid" →
     (∀ ops, orders (run_ops ops s) !! order_id = Some o)
     ∧ process_successful_payment now payment_id order_id s = s
     ∧ check_payment_status now find_one order_id s = (s, CheckAlreadyConfirmed))
  ∧ (o_status o ≠ "created" →
     check_pending_payments now find_one (without_order order_id s)
     = without_order order_id (check_pending_payments now find_one s)
     ∧ orders (check_pending_payments now find_one s) !! order_id
       = (if decide (is_stale now o) then None else Some o)
     ∧ (∀ w op o', orders (run_op w op s) !! order_id = Some o' →
                   o_status o' ≠ "created"))
  ∧ (o_status o = "failed" →
     (find_one (o_yookassa_payment_id o) ≠ Some "succeeded" →
      (check_payment_status now find_one order_id s).1 = s)
     ∧ (find_one (o_yookassa_payment_id o) = Some "succeeded" →
        check_payment_status now find_one order_id s
        = (process_successful_payment now (o_yookassa_payment_id o) order_id s,
           CheckConfirmed))).
Proof.
  intros Ho. split; [|split].
  - intros Hp. split; [|split].
    + intros ops. by apply paid_kept_ops.
    + by apply (settle_paid _ _ _ _ o).
    + unfold check_payment_status. by rewrite Ho, Hp.
  - intros Hc.
    assert (Hn : ∀ o', orders s !! order_id = Some o' → o_status o' ≠ "created")
      by (intros o' Ho'; congruence).
    split; [by apply sweep_without|]. split.
    + unfold check_pending_payments. rewrite purge_lookup.
      rewrite sweep_fold_other_order by (by apply not_created_not_fetched).
      by rewrite Ho.
    + intros w op o' Ho'. by apply (left_created_op w op s order_id o o').
  - intros Hf. split.
    + intros Hn. apply check_writes_on_success_only.
      intros o' Ho'. congruence.
    + intros Hs. unfold check_payment_status. by rewrite Ho, Hf, Hs.
Qed.

Lemma paid_is_terminal_witness :
  orders demo_paid_db !! "ord-1" = Some (set_order_status "paid" demo_order)
  ∧ check_payment_status 2000 (provider "succeeded") "ord-1" demo_paid_db
    = (demo_paid_db, CheckAlreadyConfirmed).
Proof.
  assert (H : orders demo_paid_db !! "ord-1" = Some (set_order_status "paid" demo_order))
    by (vm_compute; reflexivity).
  split; [exact H|].
  destruct (paid_is_terminal 2000 (provider "succeeded") "pay-1" "ord-1"
              demo_paid_db _ H) as (Hp & _).
  apply Hp. reflexivity.
Defined.

(** ** The cancel button *)

(** C10. The button [cancel_order_<order_id>] answers that the order is
    canceled and writes nothing: the database after is the database before,
    so the order is still ['created'], its payment row still ['pending'] and
    the balance the same. An order canceled in this way whose payment the
    provider reports as succeeded is settled by the next synchronous check,
    and by the next sweep run within a day of its creation. *)
Theorem cancel_changes_nothing (w : world) (user_id order_id : string) (s : db) :
  (button_handler w user_id ("cancel_order_" +:+ order_id) s).1 = s
  ∧ (button_handler w user_id ("cancel_order_" +:+ order_id) s).2 = BtnOrderCanceled
  ∧ (∀ o now find_one,
       orders s !! order_id = Some o → o_status o = "created" →
       find_one (o_yookassa_payment_id o) = Some "succeeded" →
       let s' := (button_handler w user_id ("cancel_order_" +:+ order_id) s).1 in
       orders s' !! order_id = Some o
       ∧ order_status order_id (check_payment_status now find_one order_id s').1
         = Some "paid"
       ∧ tokens_of (o_user_id o) (check_payment_status now find_one order_id s').1
         = (λ t, t + o_tokens o) <$> tokens_of (o_user_id o) s
       ∧ (now - one_day < o_created o →
          order_status order_id (check_pending_payments now find_one s')
          = Some "paid")).
Proof.
  assert (E : button_handler w user_id ("cancel_order_" +:+ order_id) s
              = (s, BtnOrderCanceled)).
  { unfold button_handler.
    change ("cancel_order_" +:+ order_id)
      with ("cancel" +:+ "_" +:+ "order" +:+ "_" +:+ order_id).
    destruct (third_field "cancel" "order" order_id eq_refl eq_refl) as [f Hf].
    simpl in Hf |- *. by rewrite Hf, prefix_empty. }
  rewrite E. simpl. split; [done|]. split; [done|].
  intros o now find_one Ho Hc Hf.
  assert (Hp : o_status o ≠ "paid") by (rewrite Hc; discriminate).
  split; [done|].
  assert (Ec : check_payment_status now find_one order_id s
               = (process_successful_payment now (o_yookassa_payment_id o) order_id s,
                  CheckConfirmed)).
  { unfold check_payment_status. by rewrite Ho, Hc, Hf. }
  rewrite Ec. simpl. split; [|split].
  - unfold order_status. by rewrite (settle_status _ _ _ _ o Ho).
  - rewrite (settle_unpaid _ _ _ _ o Ho Hp). unfold tokens_of. simpl.
    rewrite lookup_alter_eq. by destruct (users s !! o_user_id o).
  - intros Hfresh. unfold order_status.
    by rewrite (sweep_settles now find_one s order_id o Ho (conj Hc Hfresh) Hf).
Qed.

Lemma cancel_changes_nothing_witness :
  orders demo_db !! "ord-1" = Some demo_order
  ∧ (button_handler (quiet_world 1010) "42" "cancel_order_ord-1" demo_db).1 = demo_db
  ∧ order_status "ord-1"
      (check_payment_status 1020 (provider "succeeded") "ord-1"
         (button_handler (quiet_world 1010) "42" "cancel_order_ord-1" demo_db).1).1
    = Some "paid".
Proof.
  assert (H : orders demo_db !! "ord-1" = Some demo_order) by (vm_compute; reflexivity).
  split; [exact H|].
  destruct (cancel_changes_nothing (quiet_world 1010) "42" "ord-1" demo_db)
    as (H1 & _ & H3).
  split; [exact H1|].
  apply (H3 demo_order 1020 (provider "succeeded") H); reflexivity.
Defined.

(** * Further properties of the handlers *)

(** ** Sums over the paid orders *)

Lemma paid_sum_delete f uid (m : gmap string order) i o :
  m !! i = Some o →
  paid_sum f uid m = paid_amount f uid o + paid_sum f uid (delete i m).
Proof.
  intros H. unfold paid_sum.
  apply (map_fold_delete_L (λ _ o acc, paid_amount f uid o + acc)); [|done].
  intros. lia.
Qed.

Lemma paid_sum_insert f uid (m : gmap string order) i o :
  m !! i = None →
  paid_sum f uid (<[i:=o]> m) = paid_amount f uid o + paid_sum f uid m.
Proof.
  intros H. unfold paid_sum.
  apply (map_fold_insert_L (λ _ o acc, paid_amount f uid o + acc)); [|done].
  intros. lia.
Qed.

Lemma paid_sum_alter f uid g (m : gmap string order) i o :
  m !! i = Some o →
  paid_sum f uid (alter g i m)
  = paid_sum f uid m - paid_amount f uid o + paid_amount f uid (g o).
Proof.
  intros H.
  assert (E : alter g i m = <[i := g o]> (delete i m)).
  { apply map_eq. intros k. destruct (decide (k = i)) as [->|Hne].
    - by rewrite lookup_alter_eq, lookup_insert_eq, H.
    - by rewrite lookup_alter_ne, lookup_insert_ne, lookup_delete_ne. }
  rewrite E, paid_sum_insert by apply lookup_delete_eq.
  rewrite (paid_sum_delete f uid m i o H). lia.
Qed.

Lemma paid_sum_filter f uid (P : string * order → Prop)
    `{!∀ x, Decision (P x)} (m : gmap string order) :
  (∀ i o, m !! i = Some o → ¬ P (i, o) → paid_amount f uid o = 0) →
  paid_sum f uid (filter P m) = paid_sum f uid m.
Proof.
  induction m as [|i o m Hi IH] using map_ind; intros Hz.
  { by rewrite map_filter_empty. }
  assert (IH' : paid_sum f uid (filter P m) = paid_sum f uid m).
  { apply IH. intros j o' Hj. apply Hz. rewrite lookup_insert_ne; [done|]. congruence. }
  destruct (decide (P (i, o))) as [HP|HP].
  - rewrite map_filter_insert_True by done.
    rewrite !paid_sum_insert; [lia | done |].
    apply map_lookup_filter_None. by left.
  - rewrite map_filter_insert_False by done.
    rewrite (delete_id m i) by done.
    rewrite paid_sum_insert by done.
    rewrite (Hz i o) by (done || apply lookup_insert_eq). lia.
Qed.

Lemma paid_amount_unpaid f uid o :
  o_status o ≠ "paid" → paid_amount f uid o = 0.
Proof. intros H. unfold paid_amount. rewrite decide_False; [done | tauto]. Qed.

Lemma paid_amount_paid f uid o :
  o_status o = "paid" →
  paid_amount f uid o = if decide (o_user_id o = uid) then f o else 0.
Proof.
  intros H. unfold paid_amount.
  destruct (decide (o_user_id o = uid)).
  - by rewrite decide_True.
  - rewrite decide_False; [done | tauto].
Qed.

(** ** The ledger *)

Lemma ledger_step_refl uid s : ledger_step uid 0 s s.
Proof. intros u Hu. exists u. repeat split; [done | lia]. Qed.

Lemma ledger_step_trans uid c1 c2 s1 s2 s3 :
  ledger_step uid c1 s1 s2 → ledger_step uid c2 s2 s3 →
  ledger_step uid (c1 + c2) s1 s3.
Proof.
  intros H1 H2 u Hu.
  destruct (H1 u Hu) as (u2 & Hu2 & T1 & S1 & R1).
  destruct (H2 u2 Hu2) as (u3 & Hu3 & T2 & S2 & R2).
  exists u3. repeat split; [done | lia | lia | congruence].
Qed.

(** The same accounts and no order that becomes or ceases to be paid. *)
Lemma ledger_step_same uid s s' :
  users s' = users s →
  (∀ f, paid_sum f uid (orders s') = paid_sum f uid (orders s)) →
  ledger_step uid 0 s s'.
Proof.
  intros Eu Ep u Hu. exists u. rewrite Eu, !Ep. repeat split; [done | lia].
Qed.

Lemma ledger_step_settle uid now pid oid s :
  ledger_step uid 0 s (process_successful_payment now pid oid s).
Proof.
  destruct (orders s !! oid) as [o|] eqn:Ho.
  2: { rewrite settle_absent by done. apply ledger_step_refl. }
  destruct (decide (o_status o = "paid")) as [Hp|Hp].
  { rewrite (settle_paid _ _ _ _ o) by done. apply ledger_step_refl. }
  rewrite (settle_unpaid _ _ _ _ o) by done. intros u Hu. simpl.
  rewrite !(paid_sum_alter _ uid _ _ oid o Ho).
  rewrite !(paid_amount_unpaid _ uid o Hp).
  rewrite !paid_amount_paid by done. simpl.
  destruct (decide (o_user_id o = uid)) as [E|Hne].
  - rewrite E, lookup_alter_eq, Hu. simpl. eexists. split; [done|].
    simpl. repeat split; lia.
  - rewrite lookup_alter_ne by done. exists u. repeat split; [done | lia | lia].
Qed.

(** One turn of the loop on an order that is not yet paid. *)
Lemma ledger_step_sweep_one uid now find_one s row :
  (∀ o, orders s !! row.1 = Some o → o_status o ≠ "paid") →
  ledger_step uid 0 s (sweep_one now find_one s row).
Proof.
  destruct row as [oid pid]. simpl. intros Hn.
  destruct (find_one pid) as [st|]; [|apply ledger_step_refl].
  destruct (String.eqb st "succeeded"); [apply ledger_step_settle|].
  destruct (String.eqb st "canceled" || String.eqb st "failed");
    [|apply ledger_step_refl].
  apply ledger_step_same; [done|]. intros f. simpl.
  destruct (orders s !! oid) as [o|] eqn:Ho.
  - rewrite (paid_sum_alter _ uid _ _ oid o Ho).
    rewrite (paid_amount_unpaid _ uid o) by by apply Hn.
    rewrite paid_amount_unpaid by (simpl; discriminate). lia.
  - by rewrite alter_id'.
Qed.

Lemma ledger_step_sweep_fold uid now find_one rows : ∀ s,
  NoDup rows.*1 →
  (∀ oid o, oid ∈ rows.*1 → orders s !! oid = Some o → o_status o ≠ "paid") →
  ledger_step uid 0 s (foldl (sweep_one now find_one) s rows).
Proof.
  induction rows as [|row rows IH]; intros s Hnd Hn; [apply ledger_step_refl|].
  rewrite fmap_cons in Hnd, Hn. apply NoDup_cons in Hnd as [Hfresh Hnd].
  simpl. change 0 with (0 + 0). eapply ledger_step_trans.
  - apply ledger_step_sweep_one. intros o. apply Hn. apply elem_of_cons. by left.
  - apply IH; [done|]. intros oid o Hin.
    rewrite sweep_one_other_order by (intros ->; contradiction).
    apply Hn. apply elem_of_cons. by right.
Qed.

Lemma ledger_step_purge uid now s : ledger_step uid 0 s (purge now s).
Proof.
  apply ledger_step_same; [done|]. intros f. unfold purge. simpl.
  apply paid_sum_filter. intros i o _ Hst. simpl in Hst.
  apply paid_amount_unpaid. intros Hp. apply Hst.
  unfold is_stale. rewrite Hp. intros [[H|H] _]; discriminate H.
Qed.

Lemma ledger_step_sweep uid now find_one s :
  ledger_step uid 0 s (check_pending_payments now find_one s).
Proof.
  unfold check_pending_payments. change 0 with (0 + 0).
  eapply ledger_step_trans; [|apply ledger_step_purge].
  apply ledger_step_sweep_fold; [apply pending_orders_NoDup|].
  intros oid o Hin Ho. apply elem_of_pending_ids in Hin as (o' & Ho' & Hc & _).
  assert (o' = o) by congruence. subst o'. rewrite Hc. discriminate.
Qed.

Lemma ledger_step_check uid now find_one oid s :
  ledger_step uid 0 s (check_payment_status now find_one oid s).1.
Proof.
  destruct (check_payment_status_cases now find_one oid s)
    as [-> | (o & _ & _ & _ & ->)];
    [apply ledger_step_refl | apply ledger_step_settle].
Qed.

Lemma ledger_step_create uid now oid c sender pk s :
  ledger_step uid 0 s (create_yookassa_payment now oid c sender pk s).1.
Proof.
  destruct (create_yookassa_payment_cases now oid c sender pk s)
    as [-> | (pid & p & _ & _ & Hfresh & ->)]; [apply ledger_step_refl|].
  apply ledger_step_same; [done|]. intros f. simpl.
  rewrite paid_sum_insert by done.
  rewrite paid_amount_unpaid by (simpl; discriminate). lia.
Qed.

Lemma ledger_step_register uid now k s :
  ledger_step uid 0 s (register_user now k s).
Proof.
  unfold register_user. destruct (users s !! k) eqn:Hk; [apply ledger_step_refl|].
  intros u Hu. exists u. simpl.
  rewrite lookup_insert_ne by congruence. repeat split; [done | lia].
Qed.

Lemma ledger_step_message uid a g r sender s :
  ledger_step uid
    (if decide (sender = uid) then debited (handle_message a g r sender s).2 else 0)
    s (handle_message a g r sender s).1.
Proof.
  destruct (handle_message_cases a g r sender s)
    as [[E D] | (v & Hv & _ & D & E)]; rewrite E, D.
  - destruct (decide (sender = uid)); apply ledger_step_refl.
  - intros u Hu. simpl. destruct (decide (sender = uid)) as [->|Hne].
    + rewrite lookup_insert_eq. assert (v = u) by congruence. subst v.
      eexists. split; [done|]. simpl. repeat split; lia.
    + rewrite lookup_insert_ne by done. exists u. repeat split; [done | lia].
Qed.

Lemma ledger_step_op w o uid s :
  ledger_step uid (charge w o uid s) s (run_op w o s).
Proof.
  destruct o as [k | k | sender | k data |]; simpl.
  - apply ledger_step_register.
  - apply ledger_step_refl.
  - apply ledger_step_message.
  - destruct (button_handler_cases w k data s) as [-> | [[pk ->] | [oid ->]]].
    + apply ledger_step_refl.
    + apply ledger_step_create.
    + apply ledger_step_check.
  - apply ledger_step_sweep.
Qed.

(** X3. The ledger of an account over one operation of the bot, whichever
    it is: the account stays, and its balance moves by the tokens of its
    orders that became paid minus the 10 tokens of an answered message of
    its own; its [total_spent] moves by the prices of those orders. *)
Theorem ledger_is_conserved (w : world) (o : op) (user_id : string) (s : db) (u : user) :
  users s !! user_id = Some u →
  ∃ u', users (run_op w o s) !! user_id = Some u'
    ∧ u_tokens u'
      = u_tokens u
        + (paid_sum o_tokens user_id (orders (run_op w o s))
           - paid_sum o_tokens user_id (orders s))
        - charge w o user_id s
    ∧ u_total_spent u'
      = u_total_spent u
        + (paid_sum o_price user_id (orders (run_op w o s))
           - paid_sum o_price user_id (orders s))
    ∧ u_registered u' = u_registered u.
Proof.
  intros Hu. destruct (ledger_step_op w o user_id s u Hu) as (u' & Hu' & T & S & R).
  exists u'. repeat split; [done | lia | lia | done].
Qed.

Lemma ledger_is_conserved_witness :
  users demo_db !! "42" = Some (mk_user 100 0 0)
  ∧ ∃ u', users (run_op (quiet_world 1030) OpSweep demo_db) !! "42" = Some u'
      ∧ u_registered u' = 0.
Proof.
  assert (H : users demo_db !! "42" = Some (mk_user 100 0 0))
    by (vm_compute; reflexivity).
  split; [exact H|].
  destruct (ledger_is_conserved (quiet_world 1030) OpSweep "42" demo_db _ H)
    as (u' & Hu' & _ & _ & R).
  exists u'. split; [exact Hu' | exact R].
Defined.

(** ** What the tables can contain *)

Lemma token_packs_positive pack_id pk :
  token_packs pack_id = Some pk → 0 < pk_tokens pk ∧ 0 < pk_price pk.
Proof.
  unfold token_packs.
  repeat (match goal with
          | |- context [if ?b then _ else _] => destruct b
          end);
    intros H; inversion H; simpl; lia.
Qed.

Lemma order_ok_set_status st o :
  st = "created" ∨ st = "paid" ∨ st = "failed" →
  order_ok o → order_ok (set_order_status st o).
Proof. intros Hst [_ Hpk]. split; [exact Hst | exact Hpk]. Qed.

Lemma payments_ok_update f pid ps :
  (∀ p, payment_ok (f p)) →
  Forall payment_ok ps → Forall payment_ok (update_payments f pid ps).
Proof.
  intros Hf H. unfold update_payments. apply Forall_fmap.
  eapply Forall_impl; [exact H|]. intros p Hp. simpl.
  by destruct (String.eqb (p_yookassa_id p) pid).
Qed.

Lemma consistent_settle now pid oid s :
  consistent s → consistent (process_successful_payment now pid oid s).
Proof.
  intros (Ho & Hu & Hp). unfold process_successful_payment.
  destruct (orders s !! oid) as [o|] eqn:E; [|done].
  destruct (String.eqb (o_status o) "paid"); [done|].
  destruct (Ho oid o E) as [_ (pk & Hpk & Et & Ep)].
  destruct (token_packs_positive _ _ Hpk) as [Ht Hpr].
  split; [|split]; simpl.
  - intros k o' Hk. destruct (decide (k = oid)) as [->|Hne].
    + rewrite lookup_alter_eq, E in Hk. inversion Hk.
      apply order_ok_set_status; [tauto | by apply (Ho oid)].
    + rewrite lookup_alter_ne in Hk by done. by apply (Ho k).
  - intros k u Hk. destruct (decide (k = o_user_id o)) as [->|Hne].
    + rewrite lookup_alter_eq in Hk.
      destruct (users s !! o_user_id o) as [u0|] eqn:E0; [|discriminate].
      inversion Hk. destruct (Hu _ _ E0) as [H1 H2].
      split; simpl; lia.
    + rewrite lookup_alter_ne in Hk by done. by apply (Hu k).
  - apply payments_ok_update; [|done]. intros p. right. by left.
Qed.

Lemma consistent_sweep_one now find_one s row :
  consistent s → consistent (sweep_one now find_one s row).
Proof.
  destruct row as [oid pid]. simpl. intros H.
  destruct (find_one pid) as [st|]; [|done].
  destruct (String.eqb st "succeeded"); [by apply consistent_settle|].
  destruct (String.eqb st "canceled" || String.eqb st "failed"); [|done].
  destruct H as (Ho & Hu & Hp). split; [|split]; simpl; [|done|].
  - intros k o' Hk. destruct (decide (k = oid)) as [->|Hne].
    + rewrite lookup_alter_eq in Hk.
      destruct (orders s !! oid) as [o|] eqn:E; [|discriminate].
      inversion Hk. apply order_ok_set_status; [tauto | by apply (Ho oid)].
    + rewrite lookup_alter_ne in Hk by done. by apply (Ho k).
  - apply payments_ok_update; [|done]. intros p. right. by right.
Qed.

Lemma consistent_sweep now find_one s :
  consistent s → consistent (check_pending_payments now find_one s).
Proof.
  intros H. unfold check_pending_payments.
  assert (Hf : consistent (foldl (sweep_one now find_one) s (pending_orders now s))).
  { generalize (pending_orders now s). intros rows. revert s H.
    induction rows as [|row rows IH]; intros s H; simpl; [done|].
    apply IH. by apply consistent_sweep_one. }
  destruct Hf as (Ho & Hu & Hp). split; [|split]; simpl; [|done|done].
  intros k o Hk. apply map_lookup_filter_Some in Hk as [Hk _]. by apply (Ho k).
Qed.

Lemma consistent_op w o s : consistent s → consistent (run_op w o s).
Proof.
  revert w o s. apply (run_op_ind (λ s s', consistent s → consistent s')).
  - done.
  - intros now uid s (Ho & Hu & Hp). unfold register_user.
    destruct (users s !! uid) eqn:E; [done|].
    split; [|split]; simpl; [done| |done].
    intros k u Hk. destruct (decide (k = uid)) as [->|Hne].
    + rewrite lookup_insert_eq in Hk. inversion Hk. split; simpl; lia.
    + rewrite lookup_insert_ne in Hk by done. by apply (Hu k).
  - intros a g r uid s (Ho & Hu & Hp).
    destruct (handle_message_cases a g r uid s) as [[-> _] | (v & Hv & Hle & _ & ->)];
      [done|].
    split; [|split]; simpl; [done| |done].
    intros k u Hk. destruct (decide (k = uid)) as [->|Hne].
    + rewrite lookup_insert_eq in Hk. inversion Hk.
      destruct (Hu _ _ Hv) as [H1 H2]. split; simpl; [lia | done].
    + rewrite lookup_insert_ne in Hk by done. by apply (Hu k).
  - intros now oid c uid pk s (Ho & Hu & Hp).
    destruct (create_yookassa_payment_cases now oid c uid pk s)
      as [-> | (pid & p & _ & Hpk & Hfresh & ->)]; [done|].
    split; [|split]; simpl; [|done|].
    + intros k o Hk. destruct (decide (k = oid)) as [->|Hne].
      * rewrite lookup_insert_eq in Hk. inversion Hk.
        split; simpl; [by left | by exists p].
      * rewrite lookup_insert_ne in Hk by done. by apply (Ho k).
    + apply Forall_app. split; [done|]. constructor; [by left | constructor].
  - intros now f oid s H.
    destruct (check_payment_status_cases now f oid s) as [-> | (o & _ & _ & _ & ->)];
      [done | by apply consistent_settle].
  - intros now f s. apply consistent_sweep.
Qed.

(** X4. What the tables of a running bot contain, after any sequence of
    operations on the database that [init_db] made: every order is
    ['created'], ['paid'] or ['failed'] (never ['canceled'], the other status
    the DELETE of the sweep names) and carries the tokens and the price of
    its pack in the catalogue; every payment row is ['pending'],
    ['completed'] or ['failed']; no balance and no [total_spent] is negative.
    Every operation keeps a database of that kind so. *)
Theorem reachable_is_consistent (ops : list (world * op)) :
  consistent (run_ops ops init_db)
  ∧ (∀ oid o, orders (run_ops ops init_db) !! oid = Some o →
              o_status o ≠ "canceled")
  ∧ (∀ w o s, consistent s → consistent (run_op w o s)).
Proof.
  assert (H : ∀ l s, consistent s → consistent (run_ops l s)).
  { unfold run_ops. induction l as [|[w o] l IH]; intros s Hs; simpl; [done|].
    apply IH. by apply consistent_op. }
  assert (H0 : consistent init_db).
  { split; [|split]; simpl; [| |constructor]; intros k x Hk;
      by rewrite lookup_empty in Hk. }
  split; [by apply H|]. split; [|apply consistent_op].
  intros oid o Ho. destruct (H ops init_db H0) as (Hord & _).
  destruct (Hord oid o Ho) as [[E | [E | E]] _]; rewrite E; discriminate.
Qed.

(** ** More on the sweep *)

Lemma sweep_one_quiet now find_one s row :
  quiet find_one row.2 → sweep_one now find_one s row = s.
Proof.
  destruct row as [oid pid]. unfold quiet. simpl.
  destruct (find_one pid) as [st|]; [|done]. intros (H1 & H2 & H3).
  destruct (String.eqb_spec st "succeeded"); [done|].
  destruct (String.eqb_spec st "canceled"); [done|].
  by destruct (String.eqb_spec st "failed").
Qed.

Lemma sweep_fold_quiet now find_one rows s :
  Forall (λ row, quiet find_one row.2) rows →
  foldl (sweep_one now find_one) s rows = s.
Proof.
  intros H. revert s. induction H as [|row rows Hq _ IH]; intros s; simpl; [done|].
  by rewrite sweep_one_quiet.
Qed.

(** An order that is ['created'] after its turn of the loop was not written
    in it, and the provider was quiet about its payment. *)
Lemma sweep_one_still_created now find_one s row o :
  orders (sweep_one now find_one s row) !! row.1 = Some o →
  o_status o = "created" →
  orders s !! row.1 = Some o ∧ quiet find_one row.2.
Proof.
  destruct row as [oid pid]. unfold quiet. simpl.
  destruct (find_one pid) as [st|]; [|done].
  destruct (String.eqb_spec st "succeeded") as [->|H1].
  { intros Ho Hc. exfalso. destruct (orders s !! oid) as [o0|] eqn:E.
    - rewrite (settle_status _ _ _ _ o0 E) in Ho. inversion Ho; subst o.
      discriminate Hc.
    - rewrite settle_absent in Ho by done. congruence. }
  destruct (String.eqb_spec st "canceled") as [->|H2].
  { simpl. rewrite lookup_alter_eq. intros Ho Hc. exfalso.
    destruct (orders s !! oid); [|discriminate]. inversion Ho; subst o.
    discriminate Hc. }
  destruct (String.eqb_spec st "failed") as [->|H3].
  { simpl. rewrite lookup_alter_eq. intros Ho Hc. exfalso.
    destruct (orders s !! oid); [|discriminate]. inversion Ho; subst o.
    discriminate Hc. }
  simpl. done.
Qed.

Lemma sweep_fold_still_created now find_one rows : ∀ s oid o,
  NoDup rows.*1 →
  orders (foldl (sweep_one now find_one) s rows) !! oid = Some o →
  o_status o = "created" →
  orders s !! oid = Some o
  ∧ ∀ pid, (oid, pid) ∈ rows → quiet find_one pid.
Proof.
  induction rows as [|row rows IH]; intros s oid o Hnd Ho Hc.
  { split; [done|]. intros pid Hin. by apply elem_of_nil in Hin. }
  rewrite fmap_cons in Hnd. apply NoDup_cons in Hnd as [Hfresh Hnd].
  simpl in Ho. destruct (IH _ _ _ Hnd Ho Hc) as [Ho1 Hq].
  destruct (decide (oid = row.1)) as [->|Hne].
  - destruct (sweep_one_still_created _ _ _ _ _ Ho1 Hc) as [Ho0 Hq0].
    split; [done|]. intros pid Hin. apply elem_of_cons in Hin as [E | Hin].
    + by rewrite <- E in Hq0.
    + exfalso. apply Hfresh. apply list_elem_of_fmap. by exists (row.1, pid).
  - rewrite sweep_one_other_order in Ho1 by done. split; [done|].
    intros pid Hin. apply elem_of_cons in Hin as [E | Hin]; [|by apply Hq].
    exfalso. apply Hne. by rewrite <- E.
Qed.

Lemma db_eq s s' :
  users s = users s' → orders s = orders s' → payments s = payments s' → s = s'.
Proof. destruct s, s'. simpl. by intros -> -> ->. Qed.

Lemma purge_purge now1 now2 s :
  now1 ≤ now2 → purge now2 (purge now1 s) = purge now2 s.
Proof.
  intros Hle. apply db_eq; try done. apply map_eq. intros k.
  rewrite !purge_lookup. destruct (orders s !! k) as [o|]; [|done].
  cbn [mbind option_bind].
  destruct (decide (is_stale now1 o)) as [H1|H1]; [|done].
  cbn [mbind option_bind]. rewrite decide_True; [done|].
  destruct H1 as [Hs Hc]. split; [done|]. lia.
Qed.

(** X5. A sweep repeats nothing. When the provider answers as it did during
    a first sweep, a second sweep at the same time or later settles and fails
    no order again: all it does is the DELETE of the stale orders; at the
    same time it leaves the database as the first sweep made it. *)
Theorem sweep_is_idempotent
    (now1 now2 : Z) (find_one : string → option string) (s : db) :
  now1 ≤ now2 →
  check_pending_payments now2 find_one (check_pending_payments now1 find_one s)
  = purge now2 (check_pending_payments now1 find_one s)
  ∧ check_pending_payments now1 find_one (check_pending_payments now1 find_one s)
    = check_pending_payments now1 find_one s.
Proof.
  intros Hle.
  assert (Hq : ∀ now, now1 ≤ now →
            Forall (λ row, quiet find_one row.2)
              (pending_orders now (check_pending_payments now1 find_one s))).
  { intros now Hn. apply Forall_forall. intros [oid pid] Hin. simpl.
    apply elem_of_pending_orders in Hin as (o & Ho & [Hc Hfresh] & ->).
    unfold check_pending_payments in Ho. rewrite purge_lookup in Ho.
    destruct (orders (foldl _ _ _) !! oid) as [o1|] eqn:E; [|discriminate].
    cbn [mbind option_bind] in Ho.
    destruct (decide (is_stale now1 o1)); [discriminate|]. inversion Ho; subst o1.
    destruct (sweep_fold_still_created _ _ _ _ _ _ (pending_orders_NoDup now1 s) E Hc)
      as [Ho0 Hall].
    apply Hall. apply elem_of_pending_orders. exists o.
    repeat split; try done. lia. }
  split.
  - unfold check_pending_payments at 1. by rewrite sweep_fold_quiet by by apply Hq.
  - unfold check_pending_payments at 1. rewrite sweep_fold_quiet by by apply Hq.
    unfold check_pending_payments. by apply purge_purge.
Qed.

Lemma sweep_is_idempotent_witness :
  1030 ≤ 1060
  ∧ check_pending_payments 1060 (provider "succeeded")
      (check_pending_payments 1030 (provider "succeeded") demo_db)
    = purge 1060 (check_pending_payments 1030 (provider "succeeded") demo_db).
Proof.
  split; [lia|].
  apply (sweep_is_idempotent 1030 1060 (provider "succeeded") demo_db). lia.
Defined.

(** A fetched order whose payment the provider reports as canceled or
    failed is ['failed'] after the loop. *)
Lemma sweep_fold_fails now find_one rows : ∀ s oid pid o,
  NoDup rows.*1 → (oid, pid) ∈ rows →
  orders s !! oid = Some o →
  find_one pid = Some "canceled" ∨ find_one pid = Some "failed" →
  orders (foldl (sweep_one now find_one) s rows) !! oid
  = Some (set_order_status "failed" o).
Proof.
  induction rows as [|row rows IH]; intros s oid pid o Hnd Hin Ho Hf.
  { by apply elem_of_nil in Hin. }
  rewrite fmap_cons in Hnd. apply NoDup_cons in Hnd as [Hfresh Hnd].
  apply elem_of_cons in Hin as [<- | Hin]; simpl.
  - rewrite sweep_fold_other_order by done.
    destruct Hf as [-> | ->]; simpl; by rewrite lookup_alter_eq, Ho.
  - eapply IH; try done.
    rewrite sweep_one_other_order; [done|].
    intros ->. apply Hfresh. apply list_elem_of_fmap. by exists (row.1, pid).
Qed.

(** The payment rows of one provider id after the loop, when the provider
    gives one answer for that id. *)
Lemma sweep_one_payment_rows now find_one st pid s row :
  find_one pid = Some st →
  st = "succeeded" ∨ st = "canceled" ∨ st = "failed" →
  let final := if String.eqb st "succeeded" then "completed" else "failed" in
  (row.2 = pid ∧ is_Some (orders s !! row.1)
               ∧ (∀ o, orders s !! row.1 = Some o → o_status o ≠ "paid")
   ∨ Forall (λ p, p_yookassa_id p = pid → p_status p = final) (payments s)) →
  Forall (λ p, p_yookassa_id p = pid → p_status p = final)
         (payments (sweep_one now find_one s row)).
Proof.
  destruct row as [oid k]. simpl. intros Hf Hst Hcase.
  destruct (decide (k = pid)) as [->|Hne].
  - rewrite Hf.
    assert (Hall : ∀ g, (∀ p, p_status (g p) =
                (if String.eqb st "succeeded" then "completed" else "failed")) →
              Forall (λ p, p_yookassa_id p = pid →
                p_status p = if String.eqb st "succeeded" then "completed" else "failed")
                (update_payments g pid (payments s))).
    { intros g Hg. unfold update_payments. apply Forall_fmap, Forall_forall.
      intros p _ . simpl. destruct (String.eqb_spec (p_yookassa_id p) pid); [|done].
      intros _. apply Hg. }
    destruct Hst as [-> | [-> | ->]]; simpl.
    + unfold process_successful_payment.
      destruct Hcase as [(_ & [o Ho] & Hn) | Hold].
      * rewrite Ho. destruct (String.eqb_spec (o_status o) "paid") as [Hp|_];
          [by destruct (Hn o Ho)|]. simpl. by apply Hall.
      * destruct (orders s !! oid) as [o|]; [|done].
        destruct (String.eqb (o_status o) "paid"); [done|]. simpl. by apply Hall.
    + by apply Hall.
    + by apply Hall.
  - destruct Hcase as [(E & _) | Hold]; [done|].
    assert (Hkeep : ∀ g, (∀ p, p_yookassa_id (g p) = p_yookassa_id p) →
              Forall (λ p, p_yookassa_id p = pid →
                p_status p = if String.eqb st "succeeded" then "completed" else "failed")
                (update_payments g k (payments s))).
    { intros g Hg. unfold update_payments. apply Forall_fmap.
      eapply Forall_impl; [exact Hold|]. intros p Hp. simpl.
      destruct (String.eqb_spec (p_yookassa_id p) k) as [E|]; [|done].
      rewrite Hg. intros E'. congruence. }
    destruct (find_one k) as [st'|]; [|done].
    destruct (String.eqb st' "succeeded").
    + unfold process_successful_payment. destruct (orders s !! oid) as [o|]; [|done].
      destruct (String.eqb (o_status o) "paid"); [done|]. simpl. by apply Hkeep.
    + destruct (String.eqb st' "canceled" || String.eqb st' "failed"); [|done].
      simpl. by apply Hkeep.
Qed.

Lemma sweep_fold_payment_rows now find_one st pid rows : ∀ s oid,
  NoDup rows.*1 →
  find_one pid = Some st →
  st = "succeeded" ∨ st = "canceled" ∨ st = "failed" →
  (oid, pid) ∈ rows →
  (∀ k o, k ∈ rows.*1 → orders s !! k = Some o → o_status o ≠ "paid") →
  is_Some (orders s !! oid) →
  Forall (λ p, p_yookassa_id p = pid →
               p_status p = if String.eqb st "succeeded" then "completed" else "failed")
         (payments (foldl (sweep_one now find_one) s rows)).
Proof.
  intros s oid Hnd Hf Hst Hin Hn Hsome.
  (* once the rows of [pid] are final, every later turn keeps them so *)
  assert (Hkeep : ∀ l s0,
    Forall (λ p, p_yookassa_id p = pid →
               p_status p = if String.eqb st "succeeded" then "completed" else "failed")
           (payments s0) →
    Forall (λ p, p_yookassa_id p = pid →
               p_status p = if String.eqb st "succeeded" then "completed" else "failed")
           (payments (foldl (sweep_one now find_one) s0 l))).
  { induction l as [|row l IH]; intros s0 H0; simpl; [done|].
    apply IH. apply (sweep_one_payment_rows now find_one st pid s0 row Hf Hst).
    by right. }
  revert s Hnd Hin Hn Hsome.
  induction rows as [|row rows IH]; intros s Hnd Hin Hn Hsome.
  { by apply elem_of_nil in Hin. }
  rewrite fmap_cons in Hnd, Hn. apply NoDup_cons in Hnd as [Hfresh Hnd].
  apply elem_of_cons in Hin as [<- | Hin]; simpl.
  - apply Hkeep.
    apply (sweep_one_payment_rows now find_one st pid s (oid, pid) Hf Hst).
    left. simpl. repeat split; [done|]. intros o. apply Hn. apply elem_of_cons. by left.
  - assert (Hne : oid ≠ row.1).
    { intros ->. apply Hfresh. apply list_elem_of_fmap. by exists (row.1, pid). }
    apply IH; try done.
    + intros k o Hk. rewrite sweep_one_other_order by (intros ->; contradiction).
      apply Hn. apply elem_of_cons. by right.
    + by rewrite sweep_one_other_order.
Qed.

(** X6. The sweep and one fresh order in status ['created'], whatever the
    provider does for the payments of the other orders, an exception
    included: when the provider reports the payment of the order as
    succeeded, the order is ['paid'] after the sweep and the rows of that
    payment are ['completed']; when it reports it as canceled or failed, the
    order is ['failed'] and so are the rows; in both cases the order is
    still in the table. *)
Theorem sweep_resolves_each_order
    (now : Z) (find_one : string → option string) (s : db)
    (order_id : string) (o : order) :
  orders s !! order_id = Some o →
  o_status o = "created" → now - one_day < o_created o →
  (find_one (o_yookassa_payment_id o) = Some "succeeded" →
     orders (check_pending_payments now find_one s) !! order_id
     = Some (set_order_status "paid" o)
     ∧ Forall (λ p, p_yookassa_id p = o_yookassa_payment_id o →
                    p_status p = "completed")
              (payments (check_pending_payments now find_one s)))
  ∧ (find_one (o_yookassa_payment_id o) = Some "canceled"
     ∨ find_one (o_yookassa_payment_id o) = Some "failed" →
     orders (check_pending_payments now find_one s) !! order_id
     = Some (set_order_status "failed" o)
     ∧ Forall (λ p, p_yookassa_id p = o_yookassa_payment_id o →
                    p_status p = "failed")
              (payments (check_pending_payments now find_one s))).
Proof.
  intros Ho Hc Hfresh.
  assert (Hin : (order_id, o_yookassa_payment_id o) ∈ pending_orders now s).
  { apply elem_of_pending_orders. by exists o. }
  assert (Hn : ∀ k o', k ∈ (pending_orders now s).*1 →
                 orders s !! k = Some o' → o_status o' ≠ "paid").
  { intros k o' Hk Ho'. apply elem_of_pending_ids in Hk as (o2 & Ho2 & Hc2 & _).
    assert (o2 = o') by congruence. subst o2. rewrite Hc2. discriminate. }
  split.
  - intros Hf. split; [by apply sweep_settles|].
    unfold check_pending_payments. simpl.
    apply (sweep_fold_payment_rows now find_one "succeeded" _ _ s order_id);
      auto using pending_orders_NoDup.
  - intros Hf. split.
    + unfold check_pending_payments. rewrite purge_lookup.
      rewrite (sweep_fold_fails now find_one _ s order_id (o_yookassa_payment_id o) o);
        auto using pending_orders_NoDup.
      cbn [mbind option_bind]. rewrite decide_False; [done|].
      unfold is_stale, one_day, seven_days in *. simpl. lia.
    + unfold check_pending_payments. simpl. destruct Hf as [Hf | Hf].
      * apply (sweep_fold_payment_rows now find_one "canceled" _ _ s order_id);
          auto using pending_orders_NoDup.
      * apply (sweep_fold_payment_rows now find_one "failed" _ _ s order_id);
          auto using pending_orders_NoDup.
Qed.

Lemma sweep_resolves_each_order_witness :
  orders demo_db !! "ord-1" = Some demo_order
  ∧ orders (check_pending_payments 1030 (provider "canceled") demo_db) !! "ord-1"
    = Some (set_order_status "failed" demo_order).
Proof.
  assert (H : orders demo_db !! "ord-1" = Some demo_order) by (vm_compute; reflexivity).
  split; [exact H|].
  destruct (sweep_resolves_each_order 1030 (provider "canceled") demo_db "ord-1"
              demo_order H) as (_ & Hf).
  - reflexivity.
  - vm_compute. reflexivity.
  - apply Hf. by left.
Defined.

(** X7. An order still ['created'] a day after it was made is out of the
    reach of the sweep: it is not fetched, so no provider answer is applied
    to it, and the DELETE does not name its status. Every later sweep, and
    any number of them, leaves it in the table as it is. *)
Theorem stale_created_order_stays
    (sweeps : list (Z * (string → option string))) (s : db)
    (order_id : string) (o : order) :
  orders s !! order_id = Some o → o_status o = "created" →
  Forall (λ sw, o_created o + one_day ≤ sw.1) sweeps →
  orders (run_sweeps sweeps s) !! order_id = Some o.
Proof.
  intros Ho Hc Hall. revert s Ho. unfold run_sweeps.
  induction Hall as [|[now f] sweeps Hnow _ IH]; intros s Ho; simpl; [done|].
  apply IH. unfold check_pending_payments. rewrite purge_lookup.
  rewrite sweep_fold_other_order.
  - rewrite Ho. cbn [mbind option_bind]. rewrite decide_False; [done|].
    unfold is_stale. rewrite Hc. intros [[H|H] _]; discriminate H.
  - rewrite elem_of_pending_ids. intros (o' & Ho' & _ & Hfresh).
    assert (o' = o) by congruence. subst o'. simpl in Hnow. lia.
Qed.

Lemma stale_created_order_stays_witness :
  orders demo_db !! "ord-1" = Some demo_order
  ∧ orders (run_sweeps [(1000 + 86400, provider "succeeded");
                        (1000 + 30 * 86400, provider "canceled")] demo_db) !! "ord-1"
    = Some demo_order.
Proof.
  assert (H : orders demo_db !! "ord-1" = Some demo_order) by (vm_compute; reflexivity).
  split; [exact H|].
  apply (stale_created_order_stays _ demo_db "ord-1" demo_order H); [reflexivity|].
  repeat constructor; vm_compute; discriminate.
Defined.

(** X8. A sweep during which the provider has nothing to report (every
    call raises, or answers ['pending'] or another status the loop does not
    act on) does the DELETE of the stale orders and nothing else: no account
    and no payment row is written, and the orders that stay are as before. *)
Theorem sweep_with_quiet_provider
    (now : Z) (find_one : string → option string) (s : db) :
  (∀ payment_id, quiet find_one payment_id) →
  check_pending_payments now find_one s = purge now s
  ∧ users (check_pending_payments now find_one s) = users s
  ∧ payments (check_pending_payments now find_one s) = payments s
  ∧ ∀ oid o, orders (check_pending_payments now find_one s) !! oid = Some o →
             orders s !! oid = Some o.
Proof.
  intros Hq.
  assert (E : check_pending_payments now find_one s = purge now s).
  { unfold check_pending_payments. rewrite sweep_fold_quiet; [done|].
    apply Forall_forall. intros row _. apply Hq. }
  rewrite E. repeat split.
  intros oid o Ho. apply map_lookup_filter_Some in Ho. tauto.
Qed.

Lemma sweep_with_quiet_provider_witness :
  check_pending_payments 1030 (λ _, None) demo_db = purge 1030 demo_db.
Proof.
  apply (sweep_with_quiet_provider 1030 (λ _, None) demo_db).
  intros pid. exact I.
Defined.

(** ** The callback strings of the buttons *)

Lemma split_plain str : plain str → split "_" str = [str].
Proof.
  unfold plain. induction str as [|c rest IH]; simpl; [done|].
  destruct (Ascii.eqb c "_"); [done|]. simpl. intros H. by rewrite IH.
Qed.

Lemma split_app word rest :
  plain word → split "_" (word +:+ "_" +:+ rest) = word :: split "_" rest.
Proof.
  unfold plain. induction word as [|c word IH]; simpl; [done|].
  destruct (Ascii.eqb c "_"); [done|]. simpl. intros H. by rewrite IH.
Qed.

Lemma prefix_app pre str :
  String.prefix pre str = true → ∃ rest, str = pre +:+ rest.
Proof.
  revert str. induction pre as [|c pre IH]; intros str; simpl.
  { intros _. by exists str. }
  destruct str as [|d str]; simpl.
  - intros H. by destruct pre.
  - destruct (ascii_dec c d) as [->|]; [|by destruct pre].
    intros H. destruct (IH str) as [rest ->].
    + by destruct pre, str.
    + by exists rest.
Qed.

(** The third field of a callback string with one of the three prefixes. *)
Lemma third_of_prefixed word1 word2 arg :
  plain word1 → plain word2 →
  split "_" (word1 +:+ "_" +:+ word2 +:+ "_" +:+ arg) !! 2%nat
  = head (split "_" arg).
Proof.
  intros H1 H2. rewrite split_app by done. rewrite split_app by done.
  simpl. by destruct (split "_" arg).
Qed.

Lemma button_check w uid arg s :
  button_handler w uid ("check_payment_" +:+ arg) s
  = match head (split "_" arg) with
    | Some order_id =>
        ((check_payment_status (w_now w) (w_find_one w) order_id s).1,
         BtnCheck (check_payment_status (w_now w) (w_find_one w) order_id s).2)
    | None => (s, BtnError)
    end.
Proof.
  unfold button_handler.
  pose proof (third_of_prefixed "check" "payment" arg eq_refl eq_refl) as H.
  simpl in H |- *. rewrite H, prefix_empty. by destruct (head (split "_" arg)).
Qed.

Lemma button_create w uid arg s :
  button_handler w uid ("create_payment_" +:+ arg) s
  = match head (split "_" arg) with
    | Some pack_id =>
        ((create_yookassa_payment (w_now w) (w_uuid4 w) (w_create w) uid pack_id s).1,
         BtnCreate (create_yookassa_payment (w_now w) (w_uuid4 w) (w_create w)
                      uid pack_id s).2)
    | None => (s, BtnError)
    end.
Proof.
  unfold button_handler.
  pose proof (third_of_prefixed "create" "payment" arg eq_refl eq_refl) as H.
  simpl in H |- *. rewrite H, prefix_empty. by destruct (head (split "_" arg)).
Qed.

(** X9. The callback strings the bot puts on its buttons come back to the
    right handler with the right argument: [check_payment_<id>] runs the
    check of the order [<id>] and [create_payment_<id>] creates an order for
    the pack [<id>], for every id without an underscore; the four pack ids
    of the catalogue are such ids and all are in the catalogue. An id with
    an underscore is cut at the underscore: the handler runs on the part in
    front of it. *)
Theorem callbacks_round_trip (w : world) (user_id : string) (s : db) :
  (∀ order_id, plain order_id →
     button_handler w user_id ("check_payment_" +:+ order_id) s
     = ((check_payment_status (w_now w) (w_find_one w) order_id s).1,
        BtnCheck (check_payment_status (w_now w) (w_find_one w) order_id s).2))
  ∧ (∀ pack_id, plain pack_id →
     button_handler w user_id ("create_payment_" +:+ pack_id) s
     = ((create_yookassa_payment (w_now w) (w_uuid4 w) (w_create w)
           user_id pack_id s).1,
        BtnCreate (create_yookassa_payment (w_now w) (w_uuid4 w) (w_create w)
                     user_id pack_id s).2))
  ∧ Forall (λ pack_id, plain pack_id ∧ is_Some (token_packs pack_id)) pack_ids
  ∧ (∀ front back, plain front →
     button_handler w user_id ("check_payment_" +:+ front +:+ "_" +:+ back) s
     = button_handler w user_id ("check_payment_" +:+ front) s).
Proof.
  split; [|split; [|split]].
  - intros oid Hp. by rewrite button_check, split_plain.
  - intros pk Hp. by rewrite button_create, split_plain.
  - repeat constructor; by eexists.
  - intros front back Hp. rewrite !button_check.
    rewrite split_app by done. rewrite (split_plain front) by done. reflexivity.
Qed.

(** X10. [data.split("_")[2]] does not raise IndexError in the three
    branches of [button_handler] that use it: each of the prefixes the
    handler tests holds two underscores, so a callback string with one of
    them has a third field, an empty one at least. *)
Theorem button_handler_finds_its_argument (data : string) :
  String.prefix "create_payment_" data = true
  ∨ String.prefix "check_payment_" data = true
  ∨ String.prefix "cancel_order_" data = true →
  is_Some (split "_" data !! 2%nat).
Proof.
  assert (H3 : ∀ word1 word2 rest, plain word1 → plain word2 →
            is_Some (split "_" (word1 +:+ "_" +:+ word2 +:+ "_" +:+ rest) !! 2%nat)).
  { intros word1 word2 rest H1 H2. rewrite third_of_prefixed by done.
    destruct (split_nonempty "_" rest) as (f & fs & ->). by eexists. }
  intros [H | [H | H]]; apply prefix_app in H as [rest ->].
  - by apply (H3 "create" "payment").
  - by apply (H3 "check" "payment").
  - by apply (H3 "cancel" "order").
Qed.

Lemma button_handler_finds_its_argument_witness :
  String.prefix "cancel_order_" "cancel_order_" = true
  ∧ is_Some (split "_" "cancel_order_" !! 2%nat).
Proof.
  split; [reflexivity|].
  apply (button_handler_finds_its_argument "cancel_order_").
  right. right. reflexivity.
Defined.

(** ** The synchronous check, its answer and what follows it *)

(** X11. The answer of [check_payment_status] and the database, when any
    call of the chat transport may raise. The database changes in one way
    only: by the settlement of an unpaid order whose payment the provider
    reports as succeeded. "Order not found" is given only when there is no
    such order and "already confirmed" only when the order is paid; with
    these two, with "not yet" and with "failed or canceled" the database is
    untouched. "Confirmed" is given only with the order paid by this call.
    The error answer does not tell: it is given with the database untouched
    and also after a settlement, when the edit of the message that follows
    it raises. When no call raises, the answer and the database are those of
    [check_payment_status]. *)
Theorem check_answer_is_faithful
    (raises : check_site → bool) (now : Z) (find_one : string → option string)
    (order_id : string) (s : db) :
  let r := check_payment_status_with_transport raises now find_one order_id s in
  (r.1 = s
   ∨ ∃ o, orders s !! order_id = Some o ∧ o_status o ≠ "paid"
          ∧ find_one (o_yookassa_payment_id o) = Some "succeeded"
          ∧ r.1 = process_successful_payment now (o_yookassa_payment_id o) order_id s)
  ∧ (r.2 = Some CheckOrderNotFound → orders s !! order_id = None ∧ r.1 = s)
  ∧ (r.2 = Some CheckAlreadyConfirmed →
       order_status order_id s = Some "paid" ∧ r.1 = s)
  ∧ (r.2 = Some CheckNotYet ∨ r.2 = Some CheckFailedOrCanceled → r.1 = s)
  ∧ (r.2 = Some CheckConfirmed →
       order_status order_id r.1 = Some "paid"
       ∧ order_status order_id s ≠ Some "paid")
  ∧ (∀ o, orders s !! order_id = Some o → o_status o ≠ "paid" →
       find_one (o_yookassa_payment_id o) = Some "succeeded" →
       raises CkAck = false → raises CkEdit = true → raises CkError = false →
       r = (process_successful_payment now (o_yookassa_payment_id o) order_id s,
            Some CheckError))
  ∧ ((∀ site, raises site = false) →
       r = ((check_payment_status now find_one order_id s).1,
            Some (check_payment_status now find_one order_id s).2)).
Proof.
  unfold check_payment_status_with_transport, check_payment_status, order_status.
  cbv zeta.
  destruct (orders s !! order_id) as [o|] eqn:Ho.
  2: { destruct (raises CkAck) eqn:E0; [|destruct (raises CkNotFound) eqn:E1];
         repeat apply conj; simpl; try done; try (by left);
         try (by intros [H | H]); try (intros H; by rewrite H in * ). }
  destruct (String.eqb_spec (o_status o) "paid") as [Hp|Hp].
  { destruct (raises CkAck) eqn:E0; [|destruct (raises CkAlready) eqn:E1];
      repeat apply conj; simpl; try done; try (by left);
      try (by intros [H | H]); try (by rewrite Hp);
      try (intros o' [= <-]; done); try (intros H; by rewrite H in * ). }
  destruct (find_one (o_yookassa_payment_id o)) as [st|] eqn:Hf.
  2: { destruct (raises CkAck) eqn:E0; [|destruct (raises CkError) eqn:E1];
         repeat apply conj; simpl; try done; try (by left);
         try (by intros [H | H]); try (intros o' [= <-] ? ?; congruence);
         try (intros H; by rewrite H in * ). }
  destruct (String.eqb_spec st "succeeded") as [->|Hs].
  { assert (Hpaid : o_status <$> orders (process_successful_payment now
                      (o_yookassa_payment_id o) order_id s) !! order_id = Some "paid")
      by by rewrite (settle_status _ _ _ _ o Ho).
    assert (Hnot : Some (o_status o) ≠ Some "paid") by congruence.
    destruct (raises CkAck) eqn:E0;
      [|destruct (raises CkEdit) eqn:E1; [destruct (raises CkError) eqn:E2|]];
      repeat apply conj; simpl; try done; try (by left);
      try (by intros [H | H]); try (right; by exists o);
      try (intros o' [= <-] ? ? ? ? ?; congruence);
      try (intros H; by rewrite H in * ). }
  destruct (String.eqb st "pending").
  - destruct (raises CkAck) eqn:E0;
      [|destruct (raises CkNotYet) eqn:E1; [destruct (raises CkError) eqn:E2|]];
      repeat apply conj; simpl; try done; try (by left);
      try (by intros [H | H]); try (intros o' [= <-] ? ?; congruence);
      try (intros H; by rewrite H in * ).
  - destruct (raises CkAck) eqn:E0;
      [|destruct (raises CkFailed) eqn:E1; [destruct (raises CkError) eqn:E2|]];
      repeat apply conj; simpl; try done; try (by left);
      try (by intros [H | H]); try (intros o' [= <-] ? ?; congruence);
      try (intros H; by rewrite H in * ).
Qed.

(** X12. After a check has confirmed an order, nothing confirms it again:
    a second check answers "already confirmed" whatever the provider says,
    a settlement of the order under any payment id returns at once, and a
    sweep leaves the order as it is; the database is the same after each of
    the first two. *)
Theorem confirmed_once
    (now1 : Z) (find_one1 : string → option string) (order_id : string) (s : db) :
  (check_payment_status now1 find_one1 order_id s).2 = CheckConfirmed →
  let s1 := (check_payment_status now1 find_one1 order_id s).1 in
  (∀ now2 find_one2,
     check_payment_status now2 find_one2 order_id s1 = (s1, CheckAlreadyConfirmed))
  ∧ (∀ now2 payment_id,
       process_successful_payment now2 payment_id order_id s1 = s1)
  ∧ (∀ now2 find_one2,
       orders (check_pending_payments now2 find_one2 s1) !! order_id
       = orders s1 !! order_id).
Proof.
  intros Hc s1.
  assert (∃ o, orders s !! order_id = Some o
               ∧ check_payment_status now1 find_one1 order_id s
                 = (process_successful_payment now1 (o_yookassa_payment_id o)
                      order_id s, CheckConfirmed)) as (o & Ho & E).
  { unfold check_payment_status in Hc |- *.
    destruct (orders s !! order_id) as [o|] eqn:Ho; [|discriminate].
    destruct (String.eqb (o_status o) "paid"); [discriminate|].
    destruct (find_one1 (o_yookassa_payment_id o)) as [st|]; [|discriminate].
    destruct (String.eqb st "succeeded"); [by exists o|].
    destruct (String.eqb st "pending"); discriminate. }
  subst s1. rewrite E. cbn [fst snd].
  assert (H1 : orders (process_successful_payment now1 (o_yookassa_payment_id o)
                         order_id s) !! order_id
               = Some (set_order_status "paid" o)) by by apply settle_status.
  split; [|split].
  - intros now2 f2. unfold check_payment_status. by rewrite H1.
  - intros now2 pid. by apply (settle_paid _ _ _ _ _ H1).
  - intros now2 f2. rewrite H1.
    by apply (paid_kept_op (mk_world now2 "" None f2 true (λ _, GenRaises) false)
                OpSweep).
Qed.

Lemma confirmed_once_witness :
  (check_payment_status 1030 (provider "succeeded") "ord-1" demo_db).2 = CheckConfirmed
  ∧ check_payment_status 1040 (provider "succeeded") "ord-1"
      (check_payment_status 1030 (provider "succeeded") "ord-1" demo_db).1
    = ((check_payment_status 1030 (provider "succeeded") "ord-1" demo_db).1,
       CheckAlreadyConfirmed).
Proof.
  assert (H : (check_payment_status 1030 (provider "succeeded") "ord-1" demo_db).2
              = CheckConfirmed) by (vm_compute; reflexivity).
  split; [exact H|].
  apply (confirmed_once 1030 (provider "succeeded") "ord-1" demo_db H).
Defined.

(** ** A purchase from the button to the balance *)

(** X13. A purchase end to end. A registered user presses the button of a
    pack of the catalogue, the provider returns a payment id and the order
    id is new; later the user presses the check button and the provider
    reports the payment as succeeded. Then the balance is higher by the
    tokens of the pack and [total_spent] by its price, the order is ['paid']
    with the tokens and the price of the pack, the new payment row is the
    last one and is ['completed'], and nothing was charged in between: after
    the first step the accounts were as before. *)
Theorem purchase_end_to_end
    (now1 now2 : Z) (order_id payment_id user_id pack_id : string)
    (find_one : string → option string) (s : db) (u : user) (pk : pack) :
  users s !! user_id = Some u →
  token_packs pack_id = Some pk →
  orders s !! order_id = None →
  find_one payment_id = Some "succeeded" →
  let s1 := (create_yookassa_payment now1 order_id (Some payment_id)
               user_id pack_id s).1 in
  let s2 := (check_payment_status now2 find_one order_id s1).1 in
  users s1 = users s
  ∧ users s2 !! user_id
    = Some (mk_user (u_tokens u + pk_tokens pk) (u_total_spent u + pk_price pk)
                    (u_registered u))
  ∧ (∀ k, k ≠ user_id → users s2 !! k = users s !! k)
  ∧ orders s2 !! order_id
    = Some (mk_order user_id pack_id (pk_tokens pk) (pk_price pk) payment_id
                     "paid" now1)
  ∧ (∃ p, last (payments s2) = Some p
          ∧ p_status p = "completed" ∧ p_updated p = now2
          ∧ p_user_id p = user_id ∧ p_amount p = pk_price pk
          ∧ p_tokens_added p = pk_tokens pk ∧ p_yookassa_id p = payment_id)
  ∧ length (payments s2) = S (length (payments s)).
Proof.
  intros Hu Hpk Hfresh Hf s1 s2.
  assert (E1 : s1 = mk_db (users s)
            (<[order_id := mk_order user_id pack_id (pk_tokens pk) (pk_price pk)
                             payment_id "created" now1]> (orders s))
            (payments s ++
               [mk_payment user_id (pk_price pk) (pk_tokens pk) payment_id "pending"
                  ("Покупка " +:+ with_commas (pk_tokens pk) +:+ " токенов")
                  now1 now1])%list).
  { subst s1. unfold create_yookassa_payment. by rewrite Hpk, Hfresh. }
  assert (Ho1 : orders s1 !! order_id
                = Some (mk_order user_id pack_id (pk_tokens pk) (pk_price pk)
                                 payment_id "created" now1)).
  { rewrite E1. simpl. apply lookup_insert_eq. }
  assert (E2 : s2 = process_successful_payment now2 payment_id order_id s1).
  { subst s2. unfold check_payment_status. rewrite Ho1. simpl. by rewrite Hf. }
  rewrite E2. rewrite (settle_unpaid _ _ _ _ _ Ho1) by (simpl; discriminate).
  simpl. rewrite E1. simpl.
  split; [done|]. split; [by rewrite lookup_alter_eq, Hu|].
  split; [intros k Hne; by rewrite lookup_alter_ne|].
  split; [by rewrite lookup_alter_eq, lookup_insert_eq|].
  split.
  - unfold update_payments. rewrite fmap_app. simpl. rewrite last_snoc.
    rewrite String.eqb_refl. eexists. split; [done|]. by repeat split.
  - rewrite update_payments_length, length_app. simpl. lia.
Qed.

Lemma purchase_end_to_end_witness :
  users (register_user 0 "42" init_db) !! "42" = Some (mk_user 100 0 0)
  ∧ users (check_payment_status 1030 (provider "succeeded") "ord-1"
             (create_yookassa_payment 1000 "ord-1" (Some "pay-1") "42" "large"
                (register_user 0 "42" init_db)).1).1 !! "42"
    = Some (mk_user 15100 1200 0).
Proof.
  assert (H : users (register_user 0 "42" init_db) !! "42" = Some (mk_user 100 0 0))
    by (vm_compute; reflexivity).
  split; [exact H|].
  apply (purchase_end_to_end 1000 1030 "ord-1" "pay-1" "42" "large"
           (provider "succeeded") _ (mk_user 100 0 0)
           (mk_pack 15000 1200 "15,000 токенов") H); reflexivity.
Defined.

(** X2. A purchase of a user who never sent /start. The order can be
    created (nothing checks the account), and its settlement marks it
    ['paid'] and completes the payment rows, but the UPDATE of [users] finds
    no row: no account exists afterwards either. When the user registers
    later, the account has the 100 tokens of a new account and no
    [total_spent], and a further settlement or check of the order gives
    nothing: the tokens of the order are credited to nobody. *)
Theorem payment_without_account_is_lost
    (now1 now2 now3 : Z) (payment_id order_id : string) (s : db) (o : order)
    (find_one : string → option string) :
  orders s !! order_id = Some o → o_status o ≠ "paid" →
  users s !! o_user_id o = None →
  let s1 := process_successful_payment now1 payment_id order_id s in
  let s2 := register_user now2 (o_user_id o) s1 in
  users s1 = users s
  ∧ order_status order_id s1 = Some "paid"
  ∧ users s2 !! o_user_id o = Some (mk_user 100 0 now2)
  ∧ process_successful_payment now3 payment_id order_id s2 = s2
  ∧ check_payment_status now3 find_one order_id s2 = (s2, CheckAlreadyConfirmed).
Proof.
  intros Ho Hp Hu s1 s2.
  assert (E1 : users s1 = users s).
  { subst s1. rewrite (settle_unpaid _ _ _ _ o Ho Hp). simpl. by apply alter_id'. }
  assert (H1 : orders s1 !! order_id = Some (set_order_status "paid" o))
    by by apply settle_status.
  assert (E2 : s2 = mk_db (<[o_user_id o := mk_user 100 0 now2]> (users s1))
                      (orders s1) (payments s1)).
  { subst s2. unfold register_user. by rewrite E1, Hu. }
  split; [done|]. split; [unfold order_status; by rewrite H1|].
  rewrite E2. simpl. split; [apply lookup_insert_eq|]. split.
  - by apply (settle_paid _ _ _ _ (set_order_status "paid" o)).
  - unfold check_payment_status. simpl. by rewrite H1.
Qed.

Lemma payment_without_account_is_lost_witness :
  orders (create_yookassa_payment 1000 "ord-1" (Some "pay-1") "7" "small" init_db).1
    !! "ord-1" = Some (mk_order "7" "small" 1000 100 "pay-1" "created" 1000)
  ∧ users (register_user 1200 "7"
             (process_successful_payment 1100 "pay-1" "ord-1"
                (create_yookassa_payment 1000 "ord-1" (Some "pay-1") "7" "small"
                   init_db).1)) !! "7"
    = Some (mk_user 100 0 1200).
Proof.
  assert (H : orders (create_yookassa_payment 1000 "ord-1" (Some "pay-1") "7" "small"
                        init_db).1 !! "ord-1"
              = Some (mk_order "7" "small" 1000 100 "pay-1" "created" 1000))
    by (vm_compute; reflexivity).
  split; [exact H|].
  apply (payment_without_account_is_lost 1100 1200 1300 "pay-1" "ord-1" _ _
           (provider "succeeded") H).
  - simpl. discriminate.
  - vm_compute. reflexivity.
Defined.

(** ** The balance shown and the requests it pays for *)

(** X14. The number of requests [show_balance] announces,
    [tokens // COST_PER_REQUEST], is the number of requests the account can
    pay: that many requests in a row are served, the balance is then what is
    left of the division by 10, and the next request is refused with that
    balance, without a write. A user without an account is shown no
    balance. *)
Theorem announced_requests_are_served (user_id : string) (s : db) (u : user) :
  users s !! user_id = Some u → 0 ≤ u_tokens u →
  ∃ v, show_balance user_id s = Some v
    ∧ bv_tokens v = u_tokens u ∧ bv_total_spent v = u_total_spent u
    ∧ bv_requests v = u_tokens u / COST_PER_REQUEST
    ∧ let r := run_messages user_id (replicate (Z.to_nat (bv_requests v)) served) s in
      Forall (λ reply, debited reply = COST_PER_REQUEST) r.2
      ∧ length r.2 = Z.to_nat (bv_requests v)
      ∧ tokens_of user_id r.1 = Some (u_tokens u mod COST_PER_REQUEST)
      ∧ ∀ req, handle_message (r_ollama_available req) (r_generate req)
                 (r_reply_raises req) user_id r.1
               = (r.1, MsgInsufficient (u_tokens u mod COST_PER_REQUEST)).
Proof.
  intros Hu Hpos. unfold show_balance, get_user_info. rewrite Hu.
  cbn [fmap option_fmap option_map fst snd].
  eexists. split; [done|]. cbn [bv_tokens bv_total_spent bv_requests].
  split; [done|]. split; [done|]. split; [done|]. cbv zeta.
  assert (Hk : 0 ≤ u_tokens u / COST_PER_REQUEST)
    by (apply Z.div_pos; unfold COST_PER_REQUEST; lia).
  destruct (run_served user_id (Z.to_nat (u_tokens u / COST_PER_REQUEST)) s u Hu)
    as (Hb & Hlen & Hall).
  { rewrite Z2Nat.id by done. apply Z.mul_div_le. unfold COST_PER_REQUEST. lia. }
  rewrite Z2Nat.id in Hb by done.
  assert (Hmod : u_tokens u - COST_PER_REQUEST * (u_tokens u / COST_PER_REQUEST)
                 = u_tokens u mod COST_PER_REQUEST)
    by (rewrite Z.mod_eq; unfold COST_PER_REQUEST; lia).
  rewrite Hmod in Hb.
  split; [done|]. split; [done|]. split; [done|].
  intros req. unfold tokens_of in Hb.
  remember (run_messages user_id
              (replicate (Z.to_nat (u_tokens u / COST_PER_REQUEST)) served) s).1
    as s' eqn:Es'. clear Es'.
  destruct (users s' !! user_id) as [u'|] eqn:Hu'; [|discriminate].
  simpl in Hb. inversion Hb as [Ht].
  rewrite (handle_message_insufficient _ _ _ _ _ u' Hu'); [by rewrite Ht|].
  rewrite Ht. apply Z.mod_pos_bound. unfold COST_PER_REQUEST. lia.
Qed.

Lemma announced_requests_are_served_witness :
  users demo_db !! "42" = Some (mk_user 100 0 0)
  ∧ ∃ v, show_balance "42" demo_db = Some v ∧ bv_requests v = 100 / COST_PER_REQUEST.
Proof.
  assert (H : users demo_db !! "42" = Some (mk_user 100 0 0))
    by (vm_compute; reflexivity).
  split; [exact H|].
  destruct (announced_requests_are_served "42" demo_db _ H) as (v & Hv & _ & _ & Hr & _).
  - simpl. lia.
  - exists v. split; [exact Hv | exact Hr].
Defined.

(** X15. What a text message can touch: the orders and the payment rows
    never, the other accounts never, the sender's [total_spent] and
    registration time never; the sender's balance goes down by what the
    request paid and by nothing else. When the model was unreachable at
    start-up nothing is written at all, and the balance printed under an
    answer is the balance in the table. *)
Theorem message_touches_one_balance
    (available : bool) (generate : string → gen_result) (reply_raises : bool)
    (user_id : string) (s : db) :
  let r := handle_message available generate reply_raises user_id s in
  orders r.1 = orders s
  ∧ payments r.1 = payments s
  ∧ (∀ k, k ≠ user_id → users r.1 !! k = users s !! k)
  ∧ users r.1 !! user_id
    = (λ u, mk_user (u_tokens u - debited r.2) (u_total_spent u) (u_registered u))
        <$> users s !! user_id
  ∧ (available = false → r.1 = s ∧ debited r.2 = 0)
  ∧ (∀ answer balance, r.2 = MsgAnswered answer balance →
       tokens_of user_id r.1 = Some balance)
  ∧ (∀ balance, r.2 = MsgInsufficient balance →
       r.1 = s ∧ balance = default 0 (tokens_of user_id s)
       ∧ balance < COST_PER_REQUEST).
Proof.
  assert (Hsame : ∀ u : user,
            mk_user (u_tokens u - 0) (u_total_spent u) (u_registered u) = u).
  { intros [t sp reg]. simpl. f_equal. lia. }
  destruct (users s !! user_id) as [u|] eqn:Hu.
  2: { rewrite handle_message_no_account by done. cbn [fst snd debited].
       unfold tokens_of. rewrite Hu. cbn.
       repeat apply conj; try done; intros b [= <-]; by repeat apply conj. }
  destruct (Z.lt_ge_cases (u_tokens u) COST_PER_REQUEST) as [Hlt|Hle].
  { rewrite (handle_message_insufficient _ _ _ _ _ u) by done. cbn [fst snd debited].
    unfold tokens_of. rewrite Hu. cbn. rewrite Hsame.
    repeat apply conj; try done; intros b [= <-]; by repeat apply conj. }
  destruct available.
  2: { rewrite (handle_message_unavailable _ _ _ _ _ u) by done. cbn [fst snd debited].
       unfold tokens_of. rewrite Hu. cbn. rewrite Hsame.
       repeat apply conj; try done. }
  destruct reply_raises.
  - rewrite (handle_message_refunded _ _ _ _ _ u) by done. cbn [fst snd debited].
    unfold tokens_of. rewrite Hu. cbn. rewrite Hsame.
    repeat apply conj; try done.
  - rewrite (handle_message_answered _ _ _ _ _ u) by done.
    cbn [fst snd debited users orders payments].
    unfold tokens_of. cbn [users]. rewrite !lookup_insert_eq, Hu. cbn.
    repeat apply conj; try done.
    + intros k Hne. by rewrite lookup_insert_ne.
    + by intros a b [= _ <-].
Qed.

(** ** The payment history *)

(** X16. The list [payment_history] shows: the 10 newest payment rows of
    the user, or all of them when there are fewer; only rows of that user;
    newest first; every row of the user that is left out is at most as new
    as every row shown. The message for an empty history is given exactly
    when no row of the table belongs to the user. *)
Theorem history_shows_newest_ten (user_id : string) (s : db) :
  let mine := filter (λ p, p_user_id p = user_id) (payments s) in
  let rows := history_rows user_id s in
  length rows = min 10 (length mine)
  ∧ (∀ p, p ∈ rows → p ∈ payments s ∧ p_user_id p = user_id)
  ∧ StronglySorted newer rows
  ∧ (∃ left_out, rows ++ left_out ≡ₚ mine
       ∧ ∀ p q, p ∈ rows → q ∈ left_out → p_created q ≤ p_created p)
  ∧ (payment_history user_id s = None
     ↔ ∀ p, p ∈ payments s → p_user_id p ≠ user_id)
  ∧ (∀ entries, payment_history user_id s = Some entries →
       entries = history_entry <$> rows ∧ entries ≠ []).
Proof.
  unfold payment_history, history_rows. cbv zeta.
  remember (filter (λ p, p_user_id p = user_id) (payments s)) as mine eqn:Em.
  remember (merge_sort newer mine) as sorted eqn:Es.
  remember (take 10 sorted) as rows eqn:Er.
  assert (Hperm : sorted ≡ₚ mine) by (subst sorted; apply merge_sort_Permutation).
  assert (Hsort : StronglySorted newer sorted)
    by (subst sorted; apply StronglySorted_merge_sort; apply _).
  assert (Hlen : length rows = min 10 (length mine)).
  { subst rows. rewrite length_take. f_equal. by apply Permutation_length. }
  assert (Hsplit : (rows ++ drop 10 sorted)%list = sorted)
    by (subst rows; apply take_drop).
  rewrite <- Hsplit in Hsort.
  assert (Hnil : rows = [] ↔ mine = []).
  { split; intros E; rewrite E in Hlen; simpl in Hlen.
    - destruct mine; [done|]. simpl in Hlen. lia.
    - by destruct rows. }
  split; [done|]. split; [|split; [|split; [|split]]].
  - intros p Hp.
    assert (Hin : p ∈ mine).
    { rewrite <- Hperm. rewrite <- Hsplit. apply elem_of_app. by left. }
    rewrite Em in Hin. apply list_elem_of_filter in Hin. tauto.
  - by apply StronglySorted_app_1_l in Hsort.
  - exists (drop 10 sorted). split; [by rewrite Hsplit|].
    intros p q Hp Hq. by apply (StronglySorted_app_1_elem_of _ _ _ _ _ Hsort).
  - split.
    + intros Hn p Hp Hu.
      assert (Er0 : rows = []) by (destruct rows; [done | discriminate]).
      apply Hnil in Er0.
      assert (Hin : p ∈ mine) by (rewrite Em; apply list_elem_of_filter; done).
      rewrite Er0 in Hin. by apply elem_of_nil in Hin.
    + intros Hn. assert (E0 : mine = []).
      { destruct mine as [|p l]; [done|]. exfalso.
        assert (Hin : p ∈ filter (λ p, p_user_id p = user_id) (payments s))
          by (rewrite <- Em; left).
        apply list_elem_of_filter in Hin as [Hu Hp]. by apply (Hn p). }
      apply Hnil in E0. by rewrite E0.
  - intros entries. destruct rows; [discriminate|]. by intros [= <-].
Qed.

(** ** The dialogue history *)

(** X1. The dialogue the bot remembers for a user. After an exchange the
    list ends with the question and the answer, in front of them are the
    last 6 entries of what was remembered before (all of it when there were
    fewer), so the list never has more than 8 entries; the lists of the
    other users are untouched. The context put in front of a prompt is the
    last 3 entries remembered. Clearing forgets the list, and clearing again
    reports that there was nothing to clear. *)
Theorem dialogue_keeps_last_eight
    (user_id message answer : string) (h : gmap string (list (string * string))) :
  let old := default [] (h !! user_id) in
  (∃ kept,
     remember user_id message answer h !! user_id
     = Some (kept ++ [("user", message); ("assistant", answer)])%list
     ∧ kept `suffix_of` old
     ∧ length kept = min 6 (length old))
  ∧ (∀ k, k ≠ user_id → remember user_id message answer h !! k = h !! k)
  ∧ dialogue_context user_id h `suffix_of` old
  ∧ length (dialogue_context user_id h) = min 3 (length old)
  ∧ (clear_history user_id h).1 !! user_id = None
  ∧ (clear_history user_id h).2 = bool_decide (is_Some (h !! user_id))
  ∧ clear_history user_id (clear_history user_id h).1
    = ((clear_history user_id h).1, false).
Proof.
  intros old. split; [|split; [|split; [|split; [|split; [|split]]]]].
  - unfold remember. fold old. rewrite lookup_insert_eq.
    rewrite length_app.
    change (length [("user", message); ("assistant", answer)]) with 2%nat.
    destruct (Nat.ltb_spec 8 (length old + 2)) as [Hlt|Hge].
    + exists (drop (length old - 6) old). split; [|split].
      * f_equal. unfold last_n. rewrite length_app.
        change (length [("user", message); ("assistant", answer)]) with 2%nat.
        replace (length old + 2 - 8)%nat with (length old - 6)%nat by lia.
        apply drop_app_le. lia.
      * apply suffix_drop.
      * rewrite length_drop. lia.
    + exists old. split; [done|]. split; [done|]. lia.
  - intros k Hne. unfold remember. by rewrite lookup_insert_ne.
  - unfold dialogue_context, last_n. fold old. apply suffix_drop.
  - unfold dialogue_context, last_n. fold old. rewrite length_drop. lia.
  - unfold clear_history. destruct (h !! user_id) eqn:E; simpl; [|done].
    apply lookup_delete_eq.
  - unfold clear_history. by destruct (h !! user_id).
  - unfold clear_history.
    destruct (h !! user_id) eqn:E; simpl; [by rewrite lookup_delete_eq | by rewrite E].
Qed.

(** ** The answer that is sent *)

Lemma try_models_source generate models : ∀ start,
  try_models generate models start = start
  ∨ ∃ model answer russian filtered,
      model ∈ models ∧ generate model = GenReturns answer russian filtered
      ∧ (russian = true ∧ try_models generate models start = answer
         ∨ russian = false ∧ try_models generate models start = filtered).
Proof.
  induction models as [|model models IH]; intros start; simpl; [by left|].
  destruct (generate model) as [|a russian f] eqn:E.
  - destruct (IH start) as [H | (m & a & r & f & Hin & Hg & H)]; [by left|].
    right. exists m, a, r, f. split; [by right|]. done.
  - right. destruct russian.
    + exists model, a, true, f. split; [by left|]. split; [done|]. by left.
    + destruct (50 <? a_stripped_len f)%nat.
      * exists model, a, false, f. split; [by left|]. split; [done|]. by right.
      * destruct (IH f) as [H | (m & a' & r & f' & Hin & Hg & H)].
        -- exists model, a, false, f. split; [by left|]. split; [done|]. by right.
        -- exists m, a', r, f'. split; [by right|]. done.
Qed.

Lemma apology_is_long : a_body apology ≠ "" ∧ (20 ≤ a_stripped_len apology)%nat.
Proof. unfold apology. simpl. split; [intros H; discriminate H | lia]. Qed.

(** X17. The text sent as the answer is never empty and never shorter than
    20 characters, and it is never made up: it is the fixed apology, the
    answer of one of the four models when that answer passed the test for
    Russian, or what [filter_english_text] made of the answer of one of
    them when it did not. *)
Theorem answer_is_never_short (generate : string → gen_result) :
  let a := final_answer (try_models generate models_to_try (mk_answer "" 0)) in
  a_body a ≠ ""
  ∧ (20 ≤ a_stripped_len a)%nat
  ∧ (a = apology
     ∨ ∃ model answer russian filtered,
         model ∈ models_to_try
         ∧ generate model = GenReturns answer russian filtered
         ∧ (russian = true ∧ a = answer ∨ russian = false ∧ a = filtered)).
Proof.
  intros a. subst a. unfold final_answer.
  destruct (String.eqb_spec
              (a_body (try_models generate models_to_try (mk_answer "" 0))) "")
    as [He|Hne]; cbn [orb].
  { destruct apology_is_long. by repeat split; [| |left]. }
  destruct (Nat.ltb_spec
              (a_stripped_len (try_models generate models_to_try (mk_answer "" 0))) 20)
    as [Hlt|Hge].
  { destruct apology_is_long. by repeat split; [| |left]. }
  split; [done|]. split; [done|].
  destruct (try_models_source generate models_to_try (mk_answer "" 0))
    as [E | H]; [|by right].
  exfalso. apply Hne. by rewrite E.
Qed.

(** ** The answer of order creation *)

(** X18. The answer of [create_yookassa_payment] and the database, when
    any call of the chat transport may raise. What is written never depends
    on those calls: it is what [create_yookassa_payment] writes. "Pack not
    found" is given only for an id outside the catalogue, with nothing
    written; nothing is written either when the provider call raises or the
    order id is already in the table. The answer that names the order is
    given only with the order and its payment row written, the accounts and
    the earlier orders and rows as before. The failure answer does not tell:
    an exception after the commit (the link of the payment, the edit of the
    message, the last answer) gives it with the order and the payment row in
    the tables. *)
Theorem create_answer_is_faithful
    (raises : create_site → bool) (now : Z) (order_id : string)
    (created : option string) (user_id pack_id : string) (s : db) :
  let r := create_yookassa_payment_with_transport raises now order_id created
             user_id pack_id s in
  r.1 = (create_yookassa_payment now order_id created user_id pack_id s).1
  ∧ (r.2 = Some CreatePackNotFound → token_packs pack_id = None ∧ r.1 = s)
  ∧ (token_packs pack_id = None ∨ created = None ∨ is_Some (orders s !! order_id) →
       r.1 = s ∧ ∀ k, r.2 ≠ Some (CreateDone k))
  ∧ (∀ k, r.2 = Some (CreateDone k) →
       k = order_id
       ∧ users r.1 = users s
       ∧ (∀ oid, oid ≠ order_id → orders r.1 !! oid = orders s !! oid)
       ∧ orders s !! order_id = None
       ∧ is_Some (orders r.1 !! order_id)
       ∧ take (length (payments s)) (payments r.1) = payments s
       ∧ length (payments r.1) = S (length (payments s)))
  ∧ (∀ pk payment_id,
       token_packs pack_id = Some pk → created = Some payment_id →
       orders s !! order_id = None →
       raises CrUrl || raises CrEdit || raises CrAnswer = true →
       raises CrError = false →
       r.2 = Some CreateFailed
       ∧ orders r.1 !! order_id
         = Some (mk_order user_id pack_id (pk_tokens pk) (pk_price pk)
                          payment_id "created" now)
       ∧ length (payments r.1) = S (length (payments s)))
  ∧ ((∀ site, raises site = false) →
       r.2 = Some (create_yookassa_payment now order_id created user_id pack_id s).2).
Proof.
  unfold create_yookassa_payment_with_transport, create_yookassa_payment. cbv zeta.
  destruct (token_packs pack_id) as [pk|] eqn:Hpk.
  2: { destruct (raises CrPackNotFound) eqn:E;
         repeat apply conj; simpl; try done;
         try (intros H; by rewrite H in E). }
  destruct created as [payment_id|].
  2: { destruct (raises CrError) eqn:E;
         repeat apply conj; simpl; try done;
         try (intros H; by rewrite H in E). }
  destruct (orders s !! order_id) as [o|] eqn:Ho.
  { destruct (raises CrError) eqn:E;
      repeat apply conj; simpl; try done;
      try (intros H; by rewrite H in E). }
  assert (Hnone : ¬ (None = Some pk ∨ Some payment_id = None ∨ is_Some (@None order))).
  { intros [H | [H | [x H]]]; discriminate H. }
  destruct (raises CrUrl || raises CrEdit || raises CrAnswer) eqn:E1.
  - destruct (raises CrError) eqn:E2;
      repeat apply conj; simpl; try done;
      try (intros [H | [H | [x H]]]; discriminate H);
      try (intros pk' pid' [= <-] [= <-] _ _ _;
           rewrite lookup_insert_eq, length_app; repeat split; simpl; lia);
      try (intros H; rewrite !H in E1; discriminate E1).
  - repeat apply conj; simpl; try done;
      try (intros [H | [H | [x H]]]; discriminate H).
    intros k [= <-]. repeat apply conj; try done.
    + intros oid Hne. by rewrite lookup_insert_ne.
    + rewrite lookup_insert_eq. by eexists.
    + by rewrite take_app_length.
    + rewrite length_app. simpl. lia.
Qed.
